(** * The tag-inference job handler ([runOpenAI]) of the hoarder workers

    A shallow embedding of the queue consumer that asks a chat-completion
    API for hashtags of a bookmarked link and stores them through the ORM.

    The handler is [async] code over three collaborators: the process
    environment, the storage layer (Prisma) and the OpenAI client.  It is
    embedded as a state-and-exception monad over a [World] made of the
    storage tables and a chronological log of every request that left the
    handler (storage reads, storage writes, chat completions). *)

From Stdlib Require Import Ascii String.
From stdpp Require Import base option list gmap strings pretty.

Open Scope string_scope.
Open Scope list_scope.

Set Warnings "-register-all".

(** ** Strings as the handler sees them *)

(** The double-quote character, which occurs in two message templates. *)
Definition dquote : string := String "034"%char EmptyString.

(** Line feed, separating the lines of the prompt template. *)
Definition newline : string := String "010"%char EmptyString.

(** [msg.includes(s)] *)
Definition includes (s msg : string) : Prop :=
  exists pre post, msg = pre +:+ s +:+ post.

(** JavaScript truthiness of a value of type [string | undefined]:
    [undefined] and the empty string are falsy. *)
Definition js_truthy (v : option string) : bool :=
  match v with
  | None => false
  | Some EmptyString => false
  | Some (String _ _) => true
  end.

(** [v || dflt] on [string | undefined]. *)
Definition js_or (v : option string) (dflt : string) : string :=
  match v with
  | Some (String c s) => String c s
  | _ => dflt
  end.

(** ** JSON values (results of [JSON.parse], job payloads) *)

Inductive json : Type :=
| JNull
| JBool (b : bool)
| JNumber (lexeme : string)
| JString (s : string)
| JArray (items : list json)
| JObject (fields : list (string * json)).

(** Property read [obj[key]] on the field list of an object. *)
Fixpoint json_field (key : string) (fields : list (string * json)) : option json :=
  match fields with
  | [] => None
  | (k, v) :: rest => if String.eqb k key then Some v else json_field key rest
  end.

(** [z.array(z.string())] on the items of an array: every item must be a
    string. *)
Fixpoint json_strings (items : list json) : option (list string) :=
  match items with
  | [] => Some []
  | JString s :: rest =>
      match json_strings rest with
      | Some l => Some (s :: l)
      | None => None
      end
  | _ :: _ => None
  end.

(** ** Storage rows *)

Record BookmarkedLink : Type := {
  link_id : string;
  link_url : string;
  link_description : option string;
}.

Record Bookmark : Type := {
  bookmark_id : string;
  bookmark_userId : string;
  bookmark_link : option BookmarkedLink;
}.

Record BookmarkTag : Type := {
  tag_id : string;
  tag_name : string;
  tag_userId : string;
}.

Record TagOnBookmark : Type := {
  tagId : string;
  bookmarkId : string;
  attachedBy : string;
}.

(** The three tables the handler touches, and the counter from which the
    storage layer draws the id of the next tag row. *)
Record Db : Type := {
  bookmarks : list Bookmark;
  bookmarkTags : list BookmarkTag;
  tagsOnBookmarks : list TagOnBookmark;
  tag_seq : nat;
}.

(** ** Requests leaving the handler *)

Inductive Event : Type :=
| EvBookmarkFindUnique (id : string)
| EvTagsFindMany (userId : string) (names : list string)
| EvTagCreate (name userId : string)
| EvTagOnBookmarkCreate (tag bookmark actor : string)
| EvChatCompletion (model prompt : string).

Record World : Type := {
  db : Db;
  trace : list Event;
}.

Definition log (e : Event) (w : World) : World :=
  {| db := db w; trace := trace w ++ [e] |}.

Definition with_db (d : Db) (w : World) : World :=
  {| db := d; trace := trace w |}.

(** ** The monad of the handler: state plus thrown errors *)

Inductive Outcome (A : Type) : Type :=
| Ok (a : A)
| Throw (message : string).
Arguments Ok {A} a.
Arguments Throw {A} message.

Definition M (A : Type) : Type := World -> Outcome A * World.

Definition ret {A} (a : A) : M A := fun w => (Ok a, w).

Definition throw {A} (message : string) : M A := fun w => (Throw message, w).

Definition bind {A B} (m : M A) (k : A -> M B) : M B := fun w =>
  match m w with
  | (Ok a, w') => k a w'
  | (Throw e, w') => (Throw e, w')
  end.

Notation "x <- m ;; k" := (bind m (fun x => k))
  (at level 100, m at next level, right associativity).

(** [await Promise.all(ps)]: every request of [ps] is issued and takes its
    effect on the storage whether or not another one fails; the await
    throws the first failure, and yields all the results otherwise.  The
    requests are served in list order. *)
Fixpoint promise_all {A} (ps : list (M A)) : M (list A) := fun w =>
  match ps with
  | [] => (Ok [], w)
  | p :: rest =>
      let '(r, w1) := p w in
      let '(rs, w2) := promise_all rest w1 in
      (match r, rs with
       | Throw e, _ => Throw e
       | Ok _, Throw e => Throw e
       | Ok a, Ok l => Ok (a :: l)
       end, w2)
  end.

(** ** Collaborators outside the repository *)

Class Externals : Type := {
  (** [JSON.parse] of the runtime: the parsed value, or the text of the
      [SyntaxError] it throws. *)
  JSON_parse : string -> string + json;
  (** The text a [ZodError] raised on a value prints as. *)
  zodErrorText : json -> string;
  (** [zOpenAIRequestSchema.safeParse(data)], imported from the shared
      queues package: [request.error.toString()] on failure,
      [request.data.bookmarkId] on success. *)
  zOpenAIRequestSchema_safeParse : json -> string + string;
  (** The id the storage layer gives the n-th tag row it creates. *)
  cuid : nat -> string;
  (** [openai.chat.completions.create]: from the model name and the
      system prompt to [choices[0].message.content], which may be null.
      Transport failures of the client are outside the model. *)
  chat_completions_create : string -> string -> option string;
}.

Record Env : Type := {
  OPENAI_API_KEY : option string;
  OPENAI_ENABLED : option string;
}.

Record Job : Type := {
  job_id : option string;
  job_data : json;
}.

(** ** Storage operations *)

(** The row a [findUnique] on the bookmark id selects. *)
Definition select_bookmark (id : string) (d : Db) : option Bookmark :=
  List.find (fun b => String.eqb (bookmark_id b) id) (bookmarks d).

(** [prisma.bookmark.findUnique({ where: { id }, include: { link: true } })] *)
Definition bookmark_findUnique (id : string) : M (option Bookmark) := fun w =>
  (Ok (select_bookmark id (db w)), log (EvBookmarkFindUnique id) w).

(** The rows [where: { userId, name: { in: names } }] selects. *)
Definition select_tags (userId : string) (names : list string) (d : Db)
  : list BookmarkTag :=
  List.filter
    (fun t => String.eqb (tag_userId t) userId
              && existsb (String.eqb (tag_name t)) names)
    (bookmarkTags d).

(** [prisma.bookmarkTags.findMany({ select: { id, name }, where: ... })] *)
Definition bookmarkTags_findMany (userId : string) (names : list string)
  : M (list BookmarkTag) := fun w =>
  (Ok (select_tags userId names (db w)), log (EvTagsFindMany userId names) w).

Definition owns (userId name : string) (t : BookmarkTag) : bool :=
  String.eqb (tag_userId t) userId && String.eqb (tag_name t) name.

Definition unique_violation : string :=
  "Unique constraint failed on the fields: (`userId`,`name`)".

(** Modelled from the spec: the schema of the tag table is not part of the
    sources; the spec says a tag is a "named string, scoped per user;
    uniqueness enforced by (userId, name)".  A create for a pair that is
    already in the table is refused; otherwise the row is stored under a
    new id. *)
Definition bookmarkTags_create `{Externals} (name userId : string)
  : M BookmarkTag := fun w =>
  let w1 := log (EvTagCreate name userId) w in
  let d := db w in
  if existsb (owns userId name) (bookmarkTags d) then
    (Throw unique_violation, w1)
  else
    let row := {| tag_id := cuid (tag_seq d); tag_name := name; tag_userId := userId |} in
    (Ok row,
     with_db {| bookmarks := bookmarks d;
                bookmarkTags := bookmarkTags d ++ [row];
                tagsOnBookmarks := tagsOnBookmarks d;
                tag_seq := S (tag_seq d) |} w1).

(** Modelled from the spec: the schema of the association table is not part
    of the sources; the spec describes a "many-to-many link between
    Bookmark and Tag, recording which actor attached it" and states no
    constraint on it, so a create appends its row. *)
Definition tagsOnBookmarks_create (tag bookmark actor : string) : M TagOnBookmark := fun w =>
  let w1 := log (EvTagOnBookmarkCreate tag bookmark actor) w in
  let d := db w in
  let row := {| tagId := tag; bookmarkId := bookmark; attachedBy := actor |} in
  (Ok row,
   with_db {| bookmarks := bookmarks d;
              bookmarkTags := bookmarkTags d;
              tagsOnBookmarks := tagsOnBookmarks d ++ [row];
              tag_seq := tag_seq d |} w1).

(** ** The handler *)

(** [openai.chat.completions.create({ messages: [{ role: "system", content }],
    model, response_format })], keeping [choices[0].message.content]. *)
Definition openai_chat `{Externals} (model prompt : string) : M (option string) := fun w =>
  (Ok (chat_completions_create model prompt), log (EvChatCompletion model prompt) w).

Definition openAIResponse_model : string := "gpt-3.5-turbo-0125".

(** [openAIResponseSchema.parse]: an object whose [tags] property is an
    array of strings; [None] when zod throws. *)
Definition openAIResponseSchema_parse (j : json) : option (list string) :=
  match j with
  | JObject fields =>
      match json_field "tags" fields with
      | Some (JArray items) => json_strings items
      | _ => None
      end
  | _ => None
  end.

Definition buildPrompt (url description : string) : string :=
  newline
  +:+ "You are a bot who given an article, extracts relevant "
  +:+ dquote +:+ "hashtags" +:+ dquote +:+ " out of them." +:+ newline
  +:+ "You must respond in JSON with the key "
  +:+ dquote +:+ "tags" +:+ dquote +:+ " and the value is list of tags."
  +:+ newline
  +:+ "----" +:+ newline
  +:+ "URL: " +:+ url +:+ newline
  +:+ "Description: " +:+ description +:+ newline
  +:+ "  ".

Definition fetchBookmark (linkId : string) : M (option Bookmark) :=
  bookmark_findUnique linkId.

(** The prefix [[openai][${jobId}] ] every thrown message starts with. *)
Definition tagged (jobId text : string) : string :=
  "[openai][" +:+ jobId +:+ "] " +:+ text.

(** [t.startsWith("#") ? t.slice(1) : t] *)
Definition strip_hashtag (t : string) : string :=
  match t with
  | String "#"%char rest => rest
  | _ => t
  end.

Definition inferTags `{Externals} (jobId : string) (link : BookmarkedLink)
  : M (list string) :=
  match link_description link with
  | Some (String c d) =>
      let linkDescription := String c d in
      response <- openai_chat openAIResponse_model
                    (buildPrompt (link_url link) linkDescription);;
      match response with
      | Some (String c' r) =>
          match JSON_parse (String c' r) with
          | inl e =>
              throw (tagged jobId ("Failed to parse JSON response from OpenAI: " +:+ e))
          | inr j =>
              match openAIResponseSchema_parse j with
              | None =>
                  throw (tagged jobId ("Failed to parse JSON response from OpenAI: "
                                       +:+ zodErrorText j))
              | Some tags => ret (strip_hashtag <$> tags)
              end
          end
      | _ => throw (tagged jobId "Got no message content from OpenAI")
      end
  | _ =>
      throw (tagged jobId ("No description found for link " +:+ dquote
                           +:+ link_id link +:+ dquote +:+ ". Skipping ..."))
  end.

Definition createTags `{Externals} (tags : list string) (userId : string)
  : M (list string) :=
  existingTags <- bookmarkTags_findMany userId tags;;
  let existingTagSet : gset string := list_to_set (tag_name <$> existingTags) in
  let newTags := filter (fun t => t ∉ existingTagSet) tags in
  newTagObjects <- promise_all ((fun t => bookmarkTags_create t userId) <$> newTags);;
  ret ((tag_id <$> existingTags) ++ (tag_id <$> newTagObjects)).

Definition connectTags (bookmarkId : string) (tagIds : list string) : M unit :=
  _ <- promise_all ((fun tagId => tagsOnBookmarks_create tagId bookmarkId "ai")
                      <$> tagIds);;
  ret tt.

Definition jobId_of (job : Job) : string := js_or (job_id job) "unknown".

(** The [new OpenAI(...)] object is always truthy, so the guard that logs
    "OpenAI is not configured" never fires and is left out. *)
Definition runOpenAI `{Externals} (env : Env) (job : Job) : M unit :=
  let jobId := jobId_of job in
  if negb (js_truthy (OPENAI_API_KEY env)) || negb (js_truthy (OPENAI_ENABLED env))
  then ret tt
  else
    match zOpenAIRequestSchema_safeParse (job_data job) with
    | inl err => throw (tagged jobId ("Got malformed job request: " +:+ err))
    | inr bookmarkId =>
        bookmark <- fetchBookmark bookmarkId;;
        match bookmark with
        | None =>
            throw (tagged jobId ("bookmark with id " +:+ bookmarkId +:+ " was not found"))
        | Some bookmark =>
            match bookmark_link bookmark with
            | None =>
                throw (tagged jobId ("bookmark with id " +:+ bookmarkId
                                     +:+ " doesn't have a link"))
            | Some link =>
                tags <- inferTags jobId link;;
                tagIds <- createTags tags (bookmark_userId bookmark);;
                connectTags bookmarkId tagIds
            end
        end
    end.

(** ** A concrete runtime, for running the handler on examples *)

Module Runtime.

Definition is_ws (c : ascii) : bool :=
  Ascii.eqb c " " || Ascii.eqb c "009" || Ascii.eqb c "010" || Ascii.eqb c "013".

Definition is_digit (c : ascii) : bool :=
  (48 <=? nat_of_ascii c)%nat && (nat_of_ascii c <=? 57)%nat.

Fixpoint skip_ws (s : string) : string :=
  match s with
  | String c r => if is_ws c then skip_ws r else s
  | EmptyString => s
  end.

(** The characters of a string literal after its opening quote, up to
    the closing quote.  Escape sequences are not supported. *)
Fixpoint lex_string (s : string) : option (string * string) :=
  match s with
  | EmptyString => None
  | String c r =>
      if Ascii.eqb c "034" then Some (EmptyString, r)
      else if Ascii.eqb c "\" then None
      else match lex_string r with
           | Some (body, r') => Some (String c body, r')
           | None => None
           end
  end.

Fixpoint lex_digits (s : string) : string * string :=
  match s with
  | String c r =>
      if is_digit c then let '(ds, r') := lex_digits r in (String c ds, r')
      else (EmptyString, s)
  | EmptyString => (EmptyString, s)
  end.

Fixpoint expect (word s : string) : option string :=
  match word, s with
  | EmptyString, _ => Some s
  | String a word', String b s' => if Ascii.eqb a b then expect word' s' else None
  | String _ _, EmptyString => None
  end.

(** A recursive-descent parser for the JSON texts without escape
    sequences, fractions and exponents.  The fields of an object are
    kept latest first, so that [json_field] reads, as JavaScript does,
    the last binding of a repeated key. *)
Fixpoint parse_value (fuel : nat) (s : string) : option (json * string) :=
  match fuel with
  | O => None
  | S fuel' =>
      match skip_ws s with
      | String "{" r =>
          match skip_ws r with
          | String "}" r' => Some (JObject [], r')
          | r1 =>
              match parse_members fuel' [] r1 with
              | Some (fields, r') => Some (JObject fields, r')
              | None => None
              end
          end
      | String "[" r =>
          match skip_ws r with
          | String "]" r' => Some (JArray [], r')
          | r1 =>
              match parse_elements fuel' r1 with
              | Some (items, r') => Some (JArray items, r')
              | None => None
              end
          end
      | String "034" r =>
          match lex_string r with
          | Some (body, r') => Some (JString body, r')
          | None => None
          end
      | String "t" _ => r ← expect "true" (skip_ws s); Some (JBool true, r)
      | String "f" _ => r ← expect "false" (skip_ws s); Some (JBool false, r)
      | String "n" _ => r ← expect "null" (skip_ws s); Some (JNull, r)
      | String "-" r =>
          match lex_digits r with
          | (EmptyString, _) => None
          | (ds, r') => Some (JNumber (String "-" ds), r')
          end
      | s1 =>
          match lex_digits s1 with
          | (EmptyString, _) => None
          | (ds, r') => Some (JNumber ds, r')
          end
      end
  end
with parse_elements (fuel : nat) (s : string) : option (list json * string) :=
  match fuel with
  | O => None
  | S fuel' =>
      match parse_value fuel' s with
      | Some (v, r) =>
          match skip_ws r with
          | String "]" r' => Some ([v], r')
          | String "," r' =>
              match parse_elements fuel' r' with
              | Some (vs, r'') => Some (v :: vs, r'')
              | None => None
              end
          | _ => None
          end
      | None => None
      end
  end
with parse_members (fuel : nat) (seen : list (string * json)) (s : string)
  : option (list (string * json) * string) :=
  match fuel with
  | O => None
  | S fuel' =>
      match skip_ws s with
      | String "034" r =>
          match lex_string r with
          | Some (key, r1) =>
              match skip_ws r1 with
              | String ":" r2 =>
                  match parse_value fuel' r2 with
                  | Some (v, r3) =>
                      match skip_ws r3 with
                      | String "}" r' => Some ((key, v) :: seen, r')
                      | String "," r' => parse_members fuel' ((key, v) :: seen) r'
                      | _ => None
                      end
                  | None => None
                  end
              | _ => None
              end
          | None => None
          end
      | _ => None
      end
  end.

Definition syntax_error : string := "SyntaxError: Unexpected token in JSON".

Definition parse (text : string) : string + json :=
  match parse_value (2 * String.length text + 2) text with
  | Some (j, rest) =>
      match skip_ws rest with
      | EmptyString => inr j
      | String _ _ => inl syntax_error
      end
  | None => inl syntax_error
  end.

(** Modelled from the spec: the request schema lives in the shared queues
    package, which is not part of the sources; the spec describes "a
    payload validated against a schema exposing at least a bookmark
    identifier field", taken here as an object with a string
    [bookmarkId]. *)
Definition safeParse (data : json) : string + string :=
  match data with
  | JObject fields =>
      match json_field "bookmarkId" fields with
      | Some (JString id) => inr id
      | Some _ => inl "ZodError: bookmarkId: Expected string"
      | None => inl "ZodError: bookmarkId: Required"
      end
  | _ => inl "ZodError: Expected object"
  end.

(** A runtime whose chat-completion endpoint answers every request with
    the message content [reply]. *)
Definition replying (reply : option string) : Externals :=
  {| JSON_parse := parse;
     zodErrorText := fun _ => "ZodError: invalid response";
     zOpenAIRequestSchema_safeParse := safeParse;
     cuid := fun n => "tag" +:+ pretty n;
     chat_completions_create := fun _ _ => reply |}.

Definition quoted (s : string) : string := dquote +:+ s +:+ dquote.

(** The response text [{"tags":[...]}] listing [names]. *)
Definition tags_response (names : list string) : string :=
  "{" +:+ quoted "tags" +:+ ":["
  +:+ String.concat "," (quoted <$> names) +:+ "]}".

End Runtime.

(** ** Vocabulary of the statements *)

(** Both gating variables are set to a non-empty value. *)
Definition configured (env : Env) : Prop :=
  js_truthy (OPENAI_API_KEY env) = true /\ js_truthy (OPENAI_ENABLED env) = true.

(** The user [userId] has a tag named [name] in the table. *)
Definition has_tag (userId name : string) (d : Db) : bool :=
  existsb (owns userId name) (bookmarkTags d).

(** The names of [tags] the user does not have yet, repetitions kept. *)
Definition new_names (userId : string) (tags : list string) (d : Db) : list string :=
  List.filter (fun t => negb (has_tag userId t d)) tags.

(** The storage invariant behind the tag table: no two rows share
    [(userId, name)]. *)
Definition unique_names (d : Db) : Prop :=
  NoDup ((fun t => (tag_userId t, tag_name t)) <$> bookmarkTags d).

(** The rows the storage makes of [names], the first of them being its
    [seq]-th tag row. *)
Fixpoint fresh_rows `{Externals} (seq : nat) (userId : string) (names : list string)
  : list BookmarkTag :=
  match names with
  | [] => []
  | n :: rest =>
      {| tag_id := cuid seq; tag_name := n; tag_userId := userId |}
      :: fresh_rows (S seq) userId rest
  end.

Definition ai_link (bookmark tag : string) : TagOnBookmark :=
  {| tagId := tag; bookmarkId := bookmark; attachedBy := "ai" |}.

Definition store_tags (rows : list BookmarkTag) (d : Db) : Db :=
  {| bookmarks := bookmarks d;
     bookmarkTags := bookmarkTags d ++ rows;
     tagsOnBookmarks := tagsOnBookmarks d;
     tag_seq := length rows + tag_seq d |}.

Definition store_links (rows : list TagOnBookmark) (d : Db) : Db :=
  {| bookmarks := bookmarks d;
     bookmarkTags := bookmarkTags d;
     tagsOnBookmarks := tagsOnBookmarks d ++ rows;
     tag_seq := tag_seq d |}.

(** The chat completions requested in a log. *)
Definition chat_calls (t : list Event) : list Event :=
  List.filter (fun e => match e with EvChatCompletion _ _ => true | _ => false end) t.

(** The tag creations requested in a log. *)
Definition tag_creates (t : list Event) : list Event :=
  List.filter (fun e => match e with EvTagCreate _ _ => true | _ => false end) t.

(** The storage after a complete run on the inferred [tags]: every new name
    has its row, and every selected or created tag id is linked to the
    bookmark. *)
Definition completed `{Externals} (bookmark userId : string) (tags : list string)
    (d : Db) : Db :=
  let rows := fresh_rows (tag_seq d) userId (new_names userId tags d) in
  store_links
    (ai_link bookmark <$> ((tag_id <$> select_tags userId tags d) ++ (tag_id <$> rows)))
    (store_tags rows d).

(** ** Example data *)

Module Demo.

Definition link : BookmarkedLink :=
  {| link_id := "l1"; link_url := "https://example.com";
     link_description := Some "An example page" |}.

Definition foo : BookmarkTag :=
  {| tag_id := "t-foo"; tag_name := "foo"; tag_userId := "u1" |}.

Definition store : Db :=
  {| bookmarks :=
       [ {| bookmark_id := "b1"; bookmark_userId := "u1"; bookmark_link := Some link |};
         {| bookmark_id := "b2"; bookmark_userId := "u1"; bookmark_link := None |};
         {| bookmark_id := "b3"; bookmark_userId := "u1";
            bookmark_link := Some {| link_id := "l3"; link_url := "https://example.org";
                                     link_description := None |} |} ];
     bookmarkTags := [ foo ];
     tagsOnBookmarks := [];
     tag_seq := 0 |}.

Definition world : World := {| db := store; trace := [] |}.

Definition env : Env :=
  {| OPENAI_API_KEY := Some "sk-test"; OPENAI_ENABLED := Some "true" |}.

Definition env_disabled : Env :=
  {| OPENAI_API_KEY := Some "sk-test"; OPENAI_ENABLED := None |}.

Definition job (bookmark : string) : Job :=
  {| job_id := Some "42"; job_data := JObject [("bookmarkId", JString bookmark)] |}.

Definition malformed_job : Job :=
  {| job_id := Some "43"; job_data := JObject [("bookmark", JString "b1")] |}.

(** A runtime whose model answers with the given tags. *)
Definition answering (names : list string) : Externals :=
  Runtime.replying (Some (Runtime.tags_response names)).

(** A runtime whose model answers with prose instead of JSON. *)
Definition rambling : Externals :=
  Runtime.replying (Some "Sure! Here are some tags: foo, bar").

(** A runtime whose model gives no message content. *)
Definition silent : Externals := Runtime.replying None.

(** A storage shared by two users: "u1" has the tag "foo", "u2" the tag
    "baz". *)
Definition shared_store : Db :=
  {| bookmarks := bookmarks store;
     bookmarkTags := [ foo; {| tag_id := "t-baz"; tag_name := "baz"; tag_userId := "u2" |} ];
     tagsOnBookmarks := [];
     tag_seq := 0 |}.

Definition shared_world : World := {| db := shared_store; trace := [] |}.

End Demo.

(** ** Properties of the building blocks *)

Section Handler.

Context `{Externals}.

Lemma bind_run {A B} (m : M A) (k : A -> M B) w :
  (x <- m;; k x) w
  = match m w with
    | (Ok a, w') => k a w'
    | (Throw e, w') => (Throw e, w')
    end.
Proof. reflexivity. Qed.

Lemma includes_tagged jobId text : includes jobId (tagged jobId text).
Proof. exists "[openai][", ("] " +:+ text). reflexivity. Qed.

Lemma includes_empty msg : includes EmptyString msg.
Proof. exists EmptyString, msg. reflexivity. Qed.

Lemma js_truthy_Some v : js_truthy v = true -> exists c s, v = Some (String c s).
Proof. destruct v as [[|c s]|]; simpl; try discriminate. eauto. Qed.

Lemma owns_true u n t :
  owns u n t = true <-> tag_userId t = u /\ tag_name t = n.
Proof.
  unfold owns. rewrite andb_true_iff, !String.eqb_eq. reflexivity.
Qed.

Lemma has_tag_true u n d :
  has_tag u n d = true <->
  exists t, t ∈ bookmarkTags d /\ tag_userId t = u /\ tag_name t = n.
Proof.
  unfold has_tag. rewrite existsb_exists. split.
  - intros (t & Hin & Ho). exists t. rewrite list_elem_of_In.
    apply owns_true in Ho. tauto.
  - intros (t & Hin & Ho). exists t. rewrite <- list_elem_of_In.
    split; [done|]. by apply owns_true.
Qed.

Lemma has_tag_app u n d rows :
  has_tag u n (store_tags rows d) = has_tag u n d || existsb (owns u n) rows.
Proof. unfold has_tag, store_tags. simpl. apply existsb_app. Qed.

(** *** [Promise.all] over the tag creations *)

Lemma fresh_rows_names seq u ns : tag_name <$> fresh_rows seq u ns = ns.
Proof.
  revert seq. induction ns as [|n ns IH]; intros seq; simpl; [done|].
  by rewrite IH.
Qed.

Lemma fresh_rows_length seq u ns : length (fresh_rows seq u ns) = length ns.
Proof. rewrite <- (fresh_rows_names seq u ns) at 2. by rewrite length_fmap. Qed.

Lemma store_tags_cons row rows d :
  store_tags rows (store_tags [row] d) = store_tags (row :: rows) d.
Proof.
  unfold store_tags. simpl. f_equal.
  - by rewrite <- app_assoc.
  - lia.
Qed.

Lemma bookmarkTags_create_new n u w :
  has_tag u n (db w) = false ->
  bookmarkTags_create n u w
  = (Ok {| tag_id := cuid (tag_seq (db w)); tag_name := n; tag_userId := u |},
     {| db := store_tags
                [{| tag_id := cuid (tag_seq (db w)); tag_name := n; tag_userId := u |}]
                (db w);
        trace := trace w ++ [EvTagCreate n u] |}).
Proof.
  intros Hnew. unfold bookmarkTags_create. fold (has_tag u n (db w)).
  by rewrite Hnew.
Qed.

Lemma bookmarkTags_create_taken n u w :
  has_tag u n (db w) = true ->
  bookmarkTags_create n u w = (Throw unique_violation, log (EvTagCreate n u) w).
Proof.
  intros Hdup. unfold bookmarkTags_create. fold (has_tag u n (db w)).
  by rewrite Hdup.
Qed.

Lemma create_all_ok ns u w :
  NoDup ns ->
  (forall n, n ∈ ns -> has_tag u n (db w) = false) ->
  promise_all ((fun t => bookmarkTags_create t u) <$> ns) w
  = (Ok (fresh_rows (tag_seq (db w)) u ns),
     {| db := store_tags (fresh_rows (tag_seq (db w)) u ns) (db w);
        trace := trace w ++ ((fun t => EvTagCreate t u) <$> ns) |}).
Proof.
  revert w. induction ns as [|n ns IH]; intros w Hnd Hnew.
  - simpl. destruct w as [[bs ts ls sq] tr]. unfold store_tags. simpl.
    by rewrite !app_nil_r.
  - apply NoDup_cons in Hnd as [Hn Hnd].
    cbn [fmap list_fmap promise_all].
    rewrite bookmarkTags_create_new by (apply Hnew; set_solver).
    rewrite IH; [| done |].
    + cbn [db trace fresh_rows fmap list_fmap].
      rewrite store_tags_cons. simpl. by rewrite <- app_assoc.
    + intros n' Hin. cbn [db].
      rewrite has_tag_app, (Hnew n') by set_solver. simpl.
      rewrite orb_false_r. apply andb_false_iff. right.
      apply String.eqb_neq. simpl. intros Heq. subst. done.
Qed.

(** Whatever its outcome, the joint creation leaves the bookmarks, the
    associations and the chat log alone, and only extends the tag table. *)
Lemma create_all_frame ns u w :
  let w' := (promise_all ((fun t => bookmarkTags_create t u) <$> ns) w).2 in
  bookmarks (db w') = bookmarks (db w)
  /\ tagsOnBookmarks (db w') = tagsOnBookmarks (db w)
  /\ (exists rows, bookmarkTags (db w') = bookmarkTags (db w) ++ rows)
  /\ chat_calls (trace w') = chat_calls (trace w).
Proof.
  revert w. induction ns as [|n ns IH]; intros w.
  - simpl. repeat split; try done. exists []. by rewrite app_nil_r.
  - cbn [fmap list_fmap promise_all].
    destruct (bookmarkTags_create n u w) as [r w1] eqn:E1.
    specialize (IH w1).
    destruct (promise_all ((fun t => bookmarkTags_create t u) <$> ns) w1)
      as [rs w2] eqn:E2.
    cbn [snd] in *. destruct IH as (Hb & Hl & [rows Ht] & Hc).
    assert (bookmarks (db w1) = bookmarks (db w)
            /\ tagsOnBookmarks (db w1) = tagsOnBookmarks (db w)
            /\ (exists rows1, bookmarkTags (db w1) = bookmarkTags (db w) ++ rows1)
            /\ chat_calls (trace w1) = chat_calls (trace w)) as (Hb1 & Hl1 & [rows1 Ht1] & Hc1).
    { unfold bookmarkTags_create in E1.
      destruct (existsb (owns u n) (bookmarkTags (db w))); inversion E1; subst; cbn.
      - repeat split; try done.
        + exists []. by rewrite app_nil_r.
        + unfold chat_calls. rewrite List.filter_app. simpl. by rewrite app_nil_r.
      - repeat split; try done.
        + eauto.
        + unfold chat_calls. rewrite List.filter_app. simpl. by rewrite app_nil_r. }
    repeat split; try congruence.
    exists (rows1 ++ rows). rewrite Ht, Ht1. by rewrite <- app_assoc.
Qed.

(** *** [Promise.all] over the association creations *)

Lemma store_links_cons row rows d :
  store_links rows (store_links [row] d) = store_links (row :: rows) d.
Proof. unfold store_links. simpl. f_equal. by rewrite <- app_assoc. Qed.

Lemma connect_all bid ids w :
  promise_all ((fun id => tagsOnBookmarks_create id bid "ai") <$> ids) w
  = (Ok (ai_link bid <$> ids),
     {| db := store_links (ai_link bid <$> ids) (db w);
        trace := trace w ++ ((fun id => EvTagOnBookmarkCreate id bid "ai") <$> ids) |}).
Proof.
  revert w. induction ids as [|id ids IH]; intros w.
  - simpl. destruct w as [[bs ts ls sq] tr]. unfold store_links. simpl.
    by rewrite !app_nil_r.
  - cbn [fmap list_fmap promise_all]. unfold tagsOnBookmarks_create at 1.
    rewrite IH. cbn [db trace with_db log].
    fold (ai_link bid id). fold (store_links [ai_link bid id] (db w)).
    rewrite store_links_cons. by rewrite <- app_assoc.
Qed.

Lemma connectTags_run bid ids w :
  connectTags bid ids w
  = (Ok tt,
     {| db := store_links (ai_link bid <$> ids) (db w);
        trace := trace w ++ ((fun id => EvTagOnBookmarkCreate id bid "ai") <$> ids) |}).
Proof. unfold connectTags, bind. by rewrite connect_all. Qed.

(** *** [createTags] *)

Lemma in_select_tags u names d t :
  t ∈ select_tags u names d <->
  t ∈ bookmarkTags d /\ tag_userId t = u /\ tag_name t ∈ names.
Proof.
  unfold select_tags. rewrite !list_elem_of_In, filter_In, andb_true_iff.
  rewrite String.eqb_eq, existsb_exists.
  split.
  - intros (Hin & Hu & n & Hn & Heq). apply String.eqb_eq in Heq. by subst.
  - intros (Hin & Hu & Hn). repeat split; try done.
    exists (tag_name t). split; [done|]. apply String.eqb_refl.
Qed.

(** The set the source builds from the selected rows holds exactly the
    names of [tags] the user already has. *)
Lemma existingTagSet_spec u tags d t :
  t ∈ tags ->
  t ∈ (list_to_set (tag_name <$> select_tags u tags d) : gset string)
  <-> has_tag u t d = true.
Proof.
  intros Ht. rewrite elem_of_list_to_set, list_elem_of_fmap, has_tag_true.
  split.
  - intros (row & -> & Hrow). apply in_select_tags in Hrow as (? & ? & ?). eauto.
  - intros (row & Hin & Hu & Hn). exists row. split; [done|].
    apply in_select_tags. subst. done.
Qed.

Lemma newTags_spec u tags d :
  filter (fun t => t ∉ (list_to_set (tag_name <$> select_tags u tags d) : gset string)) tags
  = new_names u tags d.
Proof.
  unfold new_names.
  assert (forall l, l ⊆ tags ->
    filter (fun t => t ∉ (list_to_set (tag_name <$> select_tags u tags d) : gset string)) l
    = List.filter (fun t => negb (has_tag u t d)) l) as Hgen.
  { induction l as [|t l IH]; intros Hsub; [done|].
    rewrite filter_cons. simpl. rewrite IH by set_solver.
    assert (t ∈ tags) as Ht by set_solver.
    pose proof (existingTagSet_spec u tags d t Ht) as Hspec.
    destruct (has_tag u t d) eqn:Eh; simpl; case_decide as Hd; try done.
    - exfalso. apply Hd. by apply Hspec.
    - exfalso. by apply Hspec in Hd. }
  by apply Hgen.
Qed.

Lemma new_names_fresh u tags d n : n ∈ new_names u tags d -> has_tag u n d = false.
Proof.
  unfold new_names. rewrite list_elem_of_In, filter_In.
  intros [_ Hn]. by apply negb_true_iff in Hn.
Qed.

(** When no new name is repeated every creation is accepted. *)
Lemma createTags_ok tags u w :
  NoDup (new_names u tags (db w)) ->
  let rows := fresh_rows (tag_seq (db w)) u (new_names u tags (db w)) in
  createTags tags u w
  = (Ok ((tag_id <$> select_tags u tags (db w)) ++ (tag_id <$> rows)),
     {| db := store_tags rows (db w);
        trace := trace w ++ EvTagsFindMany u tags
                 :: ((fun t => EvTagCreate t u) <$> new_names u tags (db w)) |}).
Proof.
  intros Hnd rows. unfold createTags, bind, bookmarkTags_findMany.
  rewrite newTags_spec.
  rewrite create_all_ok; cbn [db log trace]; [| done | apply new_names_fresh].
  unfold ret. by rewrite <- app_assoc.
Qed.

Lemma chat_calls_app t1 t2 : chat_calls (t1 ++ t2) = chat_calls t1 ++ chat_calls t2.
Proof. apply List.filter_app. Qed.

Lemma createTags_frame tags u w :
  let w' := (createTags tags u w).2 in
  bookmarks (db w') = bookmarks (db w)
  /\ tagsOnBookmarks (db w') = tagsOnBookmarks (db w)
  /\ (exists rows, bookmarkTags (db w') = bookmarkTags (db w) ++ rows)
  /\ chat_calls (trace w') = chat_calls (trace w).
Proof.
  unfold createTags, bind, bookmarkTags_findMany.
  match goal with
  | |- context [promise_all ((fun t => bookmarkTags_create t u) <$> ?ns) ?w0] =>
      pose proof (create_all_frame ns u w0) as Hf;
      destruct (promise_all ((fun t => bookmarkTags_create t u) <$> ns) w0)
        as [[rs|e] w2]
  end; cbn [snd db log trace ret] in *;
    rewrite chat_calls_app in Hf; simpl in Hf; rewrite app_nil_r in Hf; exact Hf.
Qed.

Lemma tag_creates_app t1 t2 : tag_creates (t1 ++ t2) = tag_creates t1 ++ tag_creates t2.
Proof. apply List.filter_app. Qed.

Lemma tag_creates_requests u ns :
  tag_creates ((fun t => EvTagCreate t u) <$> ns) = (fun t => EvTagCreate t u) <$> ns.
Proof. induction ns as [|n ns IH]; simpl; [done|]. by rewrite <- IH at 2. Qed.

Lemma tag_creates_links bid ids :
  tag_creates ((fun id => EvTagOnBookmarkCreate id bid "ai") <$> ids) = [].
Proof. induction ids as [|n ns IH]; simpl; done. Qed.

(** Every name of [new_names] is requested for creation, repetitions
    included, whatever the outcome. *)
Lemma create_all_trace ns u w :
  trace (promise_all ((fun t => bookmarkTags_create t u) <$> ns) w).2
  = trace w ++ ((fun t => EvTagCreate t u) <$> ns).
Proof.
  revert w. induction ns as [|n ns IH]; intros w.
  - simpl. by rewrite app_nil_r.
  - cbn [fmap list_fmap promise_all].
    assert (trace (bookmarkTags_create n u w).2 = trace w ++ [EvTagCreate n u]) as Ht.
    { unfold bookmarkTags_create.
      by destruct (existsb (owns u n) (bookmarkTags (db w))). }
    destruct (bookmarkTags_create n u w) as [r w1]. specialize (IH w1).
    destruct (promise_all ((fun t => bookmarkTags_create t u) <$> ns) w1) as [rs w2].
    cbn [snd] in *. rewrite IH, Ht. by rewrite <- app_assoc.
Qed.

Lemma createTags_requests tags u w :
  tag_creates (trace (createTags tags u w).2)
  = tag_creates (trace w) ++ ((fun t => EvTagCreate t u) <$> new_names u tags (db w)).
Proof.
  unfold createTags. rewrite bind_run. unfold bookmarkTags_findMany.
  rewrite newTags_spec. cbn [db log].
  pose proof (create_all_trace (new_names u tags (db w)) u
                (log (EvTagsFindMany u tags) w)) as Ht.
  rewrite bind_run.
  destruct (promise_all _ _) as [[rows|e] w2]; cbn [snd ret trace log] in *;
    rewrite Ht, !tag_creates_app, tag_creates_requests; simpl;
    by rewrite app_nil_r.
Qed.

(** A new name given twice is refused the second time. *)
Lemma createTags_repeated_new_name n u w :
  has_tag u n (db w) = false ->
  (createTags [n; n] u w).1 = Throw unique_violation.
Proof.
  intros Hnew. unfold createTags. rewrite bind_run. unfold bookmarkTags_findMany.
  rewrite newTags_spec. cbn [db log]. unfold new_names. simpl. rewrite Hnew. simpl.
  rewrite bind_run.
  rewrite bookmarkTags_create_new by done.
  rewrite bookmarkTags_create_taken; [done|].
  cbn [db]. rewrite has_tag_app. simpl. unfold owns. simpl.
  by rewrite !String.eqb_refl, orb_true_r.
Qed.

(** *** [inferTags] *)

(** The inference touches the world only by logging its request. *)
Lemma inferTags_world jobId link w :
  (inferTags jobId link w).2 = w
  \/ exists d, js_truthy (link_description link) = true
               /\ link_description link = Some d
               /\ (inferTags jobId link w).2
                  = log (EvChatCompletion openAIResponse_model
                           (buildPrompt (link_url link) d)) w.
Proof.
  unfold inferTags.
  destruct (link_description link) as [[|c d]|]; [by left | | by left].
  right. exists (String c d). repeat split.
  unfold bind, openai_chat.
  destruct (chat_completions_create _ _) as [[|c' r]|]; try done.
  destruct (JSON_parse _) as [e|j]; [done|].
  by destruct (openAIResponseSchema_parse j).
Qed.

Lemma inferTags_db jobId link w : db (inferTags jobId link w).2 = db w.
Proof.
  destruct (inferTags_world jobId link w) as [-> | (d & _ & _ & ->)]; done.
Qed.

(** Its outcome does not depend on the world. *)
Lemma inferTags_outcome jobId link w w0 :
  (inferTags jobId link w).1 = (inferTags jobId link w0).1.
Proof.
  unfold inferTags.
  destruct (link_description link) as [[|c d]|]; try done.
  unfold bind, openai_chat.
  destruct (chat_completions_create _ _) as [[|c' r]|]; try done.
  destruct (JSON_parse _) as [e|j]; [done|].
  by destruct (openAIResponseSchema_parse j).
Qed.

(** Every message [inferTags] throws carries the job id. *)
Lemma inferTags_throws_tagged jobId link w msg :
  (inferTags jobId link w).1 = Throw msg -> includes jobId msg.
Proof.
  unfold inferTags.
  destruct (link_description link) as [[|c d]|];
    try (intros [= <-]; apply includes_tagged).
  unfold bind, openai_chat.
  destruct (chat_completions_create _ _) as [[|c' r]|];
    try (intros [= <-]; apply includes_tagged).
  destruct (JSON_parse _) as [e|j]; [intros [= <-]; apply includes_tagged|].
  destruct (openAIResponseSchema_parse j); [done|].
  intros [= <-]; apply includes_tagged.
Qed.

(** *** [runOpenAI] up to the inference *)

Lemma gate_open env : configured env ->
  negb (js_truthy (OPENAI_API_KEY env)) || negb (js_truthy (OPENAI_ENABLED env)) = false.
Proof. intros [-> ->]. done. Qed.

Lemma runOpenAI_reaches env job w bid b link :
  configured env ->
  zOpenAIRequestSchema_safeParse (job_data job) = inr bid ->
  select_bookmark bid (db w) = Some b ->
  bookmark_link b = Some link ->
  runOpenAI env job w
  = (tags <- inferTags (jobId_of job) link;;
     tagIds <- createTags tags (bookmark_userId b);;
     connectTags bid tagIds) (log (EvBookmarkFindUnique bid) w).
Proof.
  intros Hc Hp Hb Hl. unfold runOpenAI. rewrite (gate_open _ Hc), Hp.
  unfold bind at 1. unfold fetchBookmark, bookmark_findUnique.
  by rewrite Hb, Hl.
Qed.

(** The three ways a run can go: the gate is closed; it throws before any
    write; or it reaches [createTags] with the inferred tags. *)
Lemma runOpenAI_cases env job w :
  runOpenAI env job w = (Ok tt, w)
  \/ (exists msg w', runOpenAI env job w = (Throw msg, w')
                     /\ db w' = db w
                     /\ includes (jobId_of job) msg)
  \/ (exists bid b link tags w1,
        configured env
        /\ zOpenAIRequestSchema_safeParse (job_data job) = inr bid
        /\ select_bookmark bid (db w) = Some b
        /\ bookmark_link b = Some link
        /\ (inferTags (jobId_of job) link w).1 = Ok tags
        /\ db w1 = db w
        /\ runOpenAI env job w
           = (tagIds <- createTags tags (bookmark_userId b);;
              connectTags bid tagIds) w1).
Proof.
  destruct (js_truthy (OPENAI_API_KEY env)) eqn:Hk;
    [| left; unfold runOpenAI; by rewrite Hk].
  destruct (js_truthy (OPENAI_ENABLED env)) eqn:He;
    [| left; unfold runOpenAI; by rewrite Hk, He].
  right.
  destruct (zOpenAIRequestSchema_safeParse (job_data job)) as [err|bid] eqn:Hp.
  { left. unfold runOpenAI. rewrite Hk, He, Hp. cbn [negb orb].
    eexists _, w. repeat split. apply includes_tagged. }
  destruct (select_bookmark bid (db w)) as [b|] eqn:Hb; cycle 1.
  { left. unfold runOpenAI. rewrite Hk, He, Hp. cbn [negb orb].
    unfold bind, fetchBookmark, bookmark_findUnique. rewrite Hb.
    eexists _, _. repeat split. apply includes_tagged. }
  destruct (bookmark_link b) as [link|] eqn:Hl; cycle 1.
  { left. unfold runOpenAI. rewrite Hk, He, Hp. cbn [negb orb].
    unfold bind, fetchBookmark, bookmark_findUnique. rewrite Hb, Hl.
    eexists _, _. repeat split. apply includes_tagged. }
  rewrite (runOpenAI_reaches env job w bid b link) by done.
  rewrite bind_run.
  pose proof (inferTags_db (jobId_of job) link (log (EvBookmarkFindUnique bid) w)) as Hdb.
  pose proof (inferTags_outcome (jobId_of job) link
                (log (EvBookmarkFindUnique bid) w) w) as Hout.
  pose proof (inferTags_throws_tagged (jobId_of job) link
                (log (EvBookmarkFindUnique bid) w)) as Htag.
  destruct (inferTags (jobId_of job) link (log (EvBookmarkFindUnique bid) w))
    as [[tags|msg] w1]; cbn [fst snd] in *.
  - right. exists bid, b, link, tags, w1. by repeat split.
  - left. exists msg, w1. repeat split; [done | by apply Htag].
Qed.

(** ** The gate and the payload check *)

(** C4: when [OPENAI_API_KEY] or [OPENAI_ENABLED] is unset the handler
    returns normally and the world is the one it started from: no row is
    read or written and no chat completion is requested, whatever the
    job is. *)
Theorem unset_gate_is_silent_noop env job w :
  OPENAI_API_KEY env = None \/ OPENAI_ENABLED env = None ->
  runOpenAI env job w = (Ok tt, w).
Proof.
  intros [Hk | He]; unfold runOpenAI.
  - by rewrite Hk.
  - rewrite He. cbn [js_truthy negb]. by rewrite orb_true_r.
Qed.

(** C3 (amended): the gate comes first and the payload check second.  On
    a malformed payload the handler throws the job-tagged "malformed job
    request" error exactly when both gating variables are set to a
    non-empty value; when one of them is unset or empty it returns
    normally.  In both cases nothing is read, written or requested. *)
Theorem malformed_payload_checked_after_gate env job w err :
  zOpenAIRequestSchema_safeParse (job_data job) = inl err ->
  runOpenAI env job w
  = if js_truthy (OPENAI_API_KEY env) && js_truthy (OPENAI_ENABLED env)
    then (Throw (tagged (jobId_of job) ("Got malformed job request: " +:+ err)), w)
    else (Ok tt, w).
Proof.
  intros Hp. unfold runOpenAI. rewrite Hp.
  by destruct (js_truthy (OPENAI_API_KEY env)), (js_truthy (OPENAI_ENABLED env)).
Qed.

(** ** Failures before and during the inference *)

(** C5: with the integration configured, a job whose bookmark is not
    found, has no link, or has a link whose description is absent or
    empty makes the handler throw (a message carrying the job id); the
    only request that left the handler is the bookmark read, so the chat
    completion API was not called and nothing was written. *)
Theorem missing_link_or_description_throws_before_ai env job w bid :
  configured env ->
  zOpenAIRequestSchema_safeParse (job_data job) = inr bid ->
  (select_bookmark bid (db w) = None
   \/ (exists b, select_bookmark bid (db w) = Some b /\ bookmark_link b = None)
   \/ (exists b link, select_bookmark bid (db w) = Some b
                      /\ bookmark_link b = Some link
                      /\ js_truthy (link_description link) = false)) ->
  exists msg w',
    runOpenAI env job w = (Throw msg, w')
    /\ includes (jobId_of job) msg
    /\ w' = log (EvBookmarkFindUnique bid) w
    /\ chat_calls (trace w') = chat_calls (trace w).
Proof.
  intros Hc Hp Hcase.
  assert (chat_calls (trace (log (EvBookmarkFindUnique bid) w)) = chat_calls (trace w))
    as Hchat.
  { cbn. rewrite chat_calls_app. simpl. by rewrite app_nil_r. }
  destruct Hcase as [Hb | [(b & Hb & Hl) | (b & link & Hb & Hl & Hd)]].
  - unfold runOpenAI. rewrite (gate_open _ Hc), Hp.
    unfold bind, fetchBookmark, bookmark_findUnique. rewrite Hb.
    eexists _, _. split; [reflexivity|]. split; [apply includes_tagged | done].
  - unfold runOpenAI. rewrite (gate_open _ Hc), Hp.
    unfold bind, fetchBookmark, bookmark_findUnique. rewrite Hb, Hl.
    eexists _, _. split; [reflexivity|]. split; [apply includes_tagged | done].
  - rewrite (runOpenAI_reaches env job w bid b link) by done.
    rewrite bind_run. unfold inferTags.
    destruct (link_description link) as [[|c d]|]; try discriminate.
    + eexists _, _. split; [reflexivity|]. split; [apply includes_tagged | done].
    + eexists _, _. split; [reflexivity|]. split; [apply includes_tagged | done].
Qed.

(** C6: when the content the model answers with is not valid JSON, or is
    JSON that does not match the schema of an object with a [tags] array
    of strings, the handler throws; the message contains the job id (the
    word "unknown" when the job has none), and the storage is left as it
    was. *)
Theorem unusable_response_throws_with_job_id env job w bid b link d r :
  configured env ->
  zOpenAIRequestSchema_safeParse (job_data job) = inr bid ->
  select_bookmark bid (db w) = Some b ->
  bookmark_link b = Some link ->
  link_description link = Some d ->
  d <> EmptyString ->
  chat_completions_create openAIResponse_model (buildPrompt (link_url link) d) = Some r ->
  ((exists e, JSON_parse r = inl e)
   \/ (exists j, JSON_parse r = inr j /\ openAIResponseSchema_parse j = None)) ->
  exists msg w',
    runOpenAI env job w = (Throw msg, w')
    /\ includes (jobId_of job) msg
    /\ (forall id, job_id job = Some id -> includes id msg)
    /\ db w' = db w.
Proof.
  intros Hc Hp Hb Hl Hd Hne Hr Hbad.
  rewrite (runOpenAI_reaches env job w bid b link) by done.
  rewrite bind_run.
  assert (exists msg w1,
             inferTags (jobId_of job) link (log (EvBookmarkFindUnique bid) w)
             = (Throw msg, w1)) as (msg & w1 & Hi).
  { unfold inferTags. rewrite Hd. destruct d as [|c d]; [done|].
    rewrite bind_run. unfold openai_chat. rewrite Hr.
    destruct r as [|c' r]; [by eexists _, _|].
    destruct Hbad as [[e He] | (j & Hj & Hs)].
    - rewrite He. by eexists _, _.
    - rewrite Hj, Hs. by eexists _, _. }
  pose proof (inferTags_db (jobId_of job) link (log (EvBookmarkFindUnique bid) w)) as Hdb.
  pose proof (inferTags_throws_tagged (jobId_of job) link
                (log (EvBookmarkFindUnique bid) w) msg) as Htag.
  rewrite Hi in *. cbn [fst snd] in *. specialize (Htag eq_refl).
  exists msg, w1. repeat split; try done.
  intros id Hid. unfold jobId_of in Htag. rewrite Hid in Htag.
  destruct id as [|c s]; [apply includes_empty | exact Htag].
Qed.

(** ** Associations *)

(** C9: whatever the job and its outcome, the association rows a run adds
    to the storage all record "ai" as the attaching actor (and no
    existing association row is changed or removed). *)
Theorem associations_are_attached_by_ai env job w :
  exists rows,
    tagsOnBookmarks (db (runOpenAI env job w).2) = tagsOnBookmarks (db w) ++ rows
    /\ Forall (fun row => attachedBy row = "ai") rows.
Proof.
  destruct (runOpenAI_cases env job w)
    as [-> | [(msg & w' & -> & Hdb & _)
             | (bid & b & link & tags & w1 & _ & _ & _ & _ & _ & Hdb & ->)]].
  - exists []. by rewrite app_nil_r.
  - exists []. cbn [snd]. by rewrite Hdb, app_nil_r.
  - rewrite bind_run.
    pose proof (createTags_frame tags (bookmark_userId b) w1) as (_ & Hl & _).
    destruct (createTags tags (bookmark_userId b) w1) as [[ids|e] w2]; cbn [snd] in Hl.
    + rewrite connectTags_run. cbn [snd db store_links tagsOnBookmarks].
      exists (ai_link bid <$> ids). rewrite Hl, Hdb. split; [done|].
      apply Forall_fmap, Forall_true. done.
    + exists []. cbn [snd]. by rewrite Hl, Hdb, app_nil_r.
Qed.

(** ** Stripping and storing the inferred tags *)

Lemma strip_hashtag_leading s : strip_hashtag (String "#" s) = s.
Proof. reflexivity. Qed.

Lemma strip_hashtag_other t :
  (forall s, t <> String "#" s) -> strip_hashtag t = t.
Proof.
  intros Hne. destruct t as [|c s]; [done|].
  destruct (Ascii.eqb_spec c "#") as [-> | Hc]; [by destruct (Hne s)|].
  unfold strip_hashtag.
  destruct c as [[] [] [] [] [] [] [] []]; try reflexivity. by destruct Hc.
Qed.

(** An answer that parses and matches the schema makes the inference
    return its tags, each stripped of one leading hashtag. *)
Lemma inferTags_ok jobId link w d r j tags :
  link_description link = Some d -> d <> EmptyString ->
  chat_completions_create openAIResponse_model (buildPrompt (link_url link) d) = Some r ->
  r <> EmptyString ->
  JSON_parse r = inr j ->
  openAIResponseSchema_parse j = Some tags ->
  inferTags jobId link w
  = (Ok (strip_hashtag <$> tags),
     log (EvChatCompletion openAIResponse_model (buildPrompt (link_url link) d)) w).
Proof.
  intros Hd Hne Hr Hre Hj Hs. unfold inferTags. rewrite Hd.
  destruct d as [|c d]; [done|]. rewrite bind_run. unfold openai_chat. rewrite Hr.
  destruct r as [|c' r]; [done|]. by rewrite Hj, Hs.
Qed.

(** C2: when the answer of the model parses to [{"tags":["#foo","bar"]}],
    the inference returns exactly ["foo"; "bar"], and these are the names
    the handler hands to [createTags] for storage.  A tag that begins
    with a hashtag loses that one character; any other tag is kept as it
    is. *)
Theorem hashtag_stripped_before_storage env job w bid b link d r :
  configured env ->
  zOpenAIRequestSchema_safeParse (job_data job) = inr bid ->
  select_bookmark bid (db w) = Some b ->
  bookmark_link b = Some link ->
  link_description link = Some d ->
  d <> EmptyString ->
  chat_completions_create openAIResponse_model (buildPrompt (link_url link) d) = Some r ->
  r <> EmptyString ->
  JSON_parse r = inr (JObject [("tags", JArray [JString "#foo"; JString "bar"])]) ->
  let asked := log (EvChatCompletion openAIResponse_model
                      (buildPrompt (link_url link) d))
                   (log (EvBookmarkFindUnique bid) w) in
  inferTags (jobId_of job) link (log (EvBookmarkFindUnique bid) w)
  = (Ok ["foo"; "bar"], asked)
  /\ runOpenAI env job w
     = (tagIds <- createTags ["foo"; "bar"] (bookmark_userId b);;
        connectTags bid tagIds) asked
  /\ (forall s, strip_hashtag (String "#" s) = s)
  /\ (forall t, (forall s, t <> String "#" s) -> strip_hashtag t = t).
Proof.
  intros Hc Hp Hb Hl Hd Hne Hr Hre Hj asked.
  assert (inferTags (jobId_of job) link (log (EvBookmarkFindUnique bid) w)
          = (Ok ["foo"; "bar"], asked)) as Hi.
  { by rewrite (inferTags_ok _ _ _ d r _ [ "#foo"; "bar" ] Hd Hne Hr Hre Hj). }
  split; [exact Hi|]. split.
  - rewrite (runOpenAI_reaches env job w bid b link) by done.
    rewrite bind_run. by rewrite Hi.
  - split; [apply strip_hashtag_leading | apply strip_hashtag_other].
Qed.

(** A filter that only accepts the key of [row] selects [row] alone from
    a table without repeated keys. *)
Lemma filter_unique_key (q : BookmarkTag -> bool) row (l : list BookmarkTag) :
  NoDup ((fun t => (tag_userId t, tag_name t)) <$> l) ->
  row ∈ l ->
  q row = true ->
  (forall t, t ∈ l -> q t = true ->
             (tag_userId t, tag_name t) = (tag_userId row, tag_name row)) ->
  List.filter q l = [row].
Proof.
  induction l as [|t l IH]; intros Hnd Hin Hq Hkey; [by apply elem_of_nil in Hin|].
  rewrite fmap_cons in Hnd. apply NoDup_cons in Hnd as [Hnotin Hnd].
  assert (forall x, x ∈ l -> (tag_userId x, tag_name x) <> (tag_userId t, tag_name t))
    as Hfresh.
  { intros x Hx Heq. apply Hnotin. rewrite <- Heq.
    apply (list_elem_of_fmap_2 (fun t => (tag_userId t, tag_name t))). done. }
  apply elem_of_cons in Hin as [<- | Hin].
  - simpl. rewrite Hq. f_equal.
    destruct (List.filter q l) as [|x xs] eqn:Hf; [done|]. exfalso.
    assert (In x (List.filter q l)) as Hx by (rewrite Hf; by left).
    apply filter_In in Hx as [Hx Hqx]. apply list_elem_of_In in Hx.
    apply (Hfresh x Hx). apply Hkey; [by right | done].
  - simpl. destruct (q t) eqn:Hqt.
    + exfalso. apply (Hfresh row Hin). symmetry. apply Hkey; [by left | done].
    + apply IH; try done. intros x Hx. apply Hkey. by right.
Qed.

Lemma inferTags_tag_creates jobId link w :
  tag_creates (trace (inferTags jobId link w).2) = tag_creates (trace w).
Proof.
  destruct (inferTags_world jobId link w) as [-> | (d & _ & _ & ->)]; [done|].
  cbn. rewrite tag_creates_app. simpl. by rewrite app_nil_r.
Qed.

(** A run that reaches [createTags] with tags among which no new name is
    repeated goes through: it returns normally with every new name
    created once and every tag id linked. *)
Lemma runOpenAI_completes env job w bid b link tags :
  configured env ->
  zOpenAIRequestSchema_safeParse (job_data job) = inr bid ->
  select_bookmark bid (db w) = Some b ->
  bookmark_link b = Some link ->
  (inferTags (jobId_of job) link w).1 = Ok tags ->
  NoDup (new_names (bookmark_userId b) tags (db w)) ->
  exists w',
    runOpenAI env job w = (Ok tt, w')
    /\ db w' = completed bid (bookmark_userId b) tags (db w)
    /\ tag_creates (trace w')
       = tag_creates (trace w)
         ++ ((fun t => EvTagCreate t (bookmark_userId b))
               <$> new_names (bookmark_userId b) tags (db w)).
Proof.
  intros Hc Hp Hb Hl Hi Hnd.
  rewrite (runOpenAI_reaches env job w bid b link) by done.
  rewrite bind_run.
  pose proof (inferTags_db (jobId_of job) link (log (EvBookmarkFindUnique bid) w)) as Hdb.
  pose proof (inferTags_outcome (jobId_of job) link
                (log (EvBookmarkFindUnique bid) w) w) as Hout.
  pose proof (inferTags_tag_creates (jobId_of job) link
                (log (EvBookmarkFindUnique bid) w)) as Htc.
  destruct (inferTags (jobId_of job) link (log (EvBookmarkFindUnique bid) w))
    as [r w1]. cbn [fst snd db log trace] in *.
  rewrite Hi in Hout. subst r. rewrite bind_run.
  rewrite createTags_ok; rewrite Hdb; [| done]. cbv zeta.
  rewrite connectTags_run. eexists. split; [reflexivity|].
  cbn [db trace]. split; [reflexivity|].
  rewrite !tag_creates_app, Htc, tag_creates_app. simpl.
  rewrite tag_creates_requests, tag_creates_links. by rewrite !app_nil_r.
Qed.

Lemma select_tags_none u tags d :
  (forall t, t ∈ tags -> has_tag u t d = false) -> select_tags u tags d = [].
Proof.
  intros Hnone. destruct (select_tags u tags d) as [|row rows] eqn:Hs; [done|].
  exfalso. assert (row ∈ select_tags u tags d) as Hin by (rewrite Hs; by left).
  apply in_select_tags in Hin as (Hin & Hu & Hn).
  specialize (Hnone _ Hn). apply not_true_iff_false in Hnone. apply Hnone.
  apply has_tag_true. eauto.
Qed.

(** C1: a user who has the tag "foo" and no tag "baz" gets, from the
    inferred list ["foo"; "baz"], exactly one new tag row, named "baz";
    the bookmark gets exactly two new associations, one to the existing
    "foo" row and one to the new "baz" row; and exactly one creation is
    requested from the storage. *)
Theorem existing_tag_reused_and_new_tag_created env job w bid b link foo_row :
  configured env ->
  zOpenAIRequestSchema_safeParse (job_data job) = inr bid ->
  select_bookmark bid (db w) = Some b ->
  bookmark_link b = Some link ->
  (inferTags (jobId_of job) link w).1 = Ok ["foo"; "baz"] ->
  unique_names (db w) ->
  foo_row ∈ bookmarkTags (db w) ->
  tag_userId foo_row = bookmark_userId b ->
  tag_name foo_row = "foo" ->
  has_tag (bookmark_userId b) "baz" (db w) = false ->
  let baz_row := {| tag_id := cuid (tag_seq (db w)); tag_name := "baz";
                    tag_userId := bookmark_userId b |} in
  exists w',
    runOpenAI env job w = (Ok tt, w')
    /\ bookmarkTags (db w') = bookmarkTags (db w) ++ [baz_row]
    /\ tagsOnBookmarks (db w')
       = tagsOnBookmarks (db w)
         ++ [ai_link bid (tag_id foo_row); ai_link bid (tag_id baz_row)]
    /\ bookmarks (db w') = bookmarks (db w)
    /\ tag_creates (trace w')
       = tag_creates (trace w) ++ [EvTagCreate "baz" (bookmark_userId b)].
Proof.
  intros Hc Hp Hb Hl Hi Huniq Hin Hu Hn Hbaz baz_row.
  assert (has_tag (bookmark_userId b) "foo" (db w) = true) as Hfoo.
  { apply has_tag_true. eauto. }
  assert (new_names (bookmark_userId b) ["foo"; "baz"] (db w) = ["baz"]) as Hnew.
  { unfold new_names. simpl. by rewrite Hfoo, Hbaz. }
  assert (select_tags (bookmark_userId b) ["foo"; "baz"] (db w) = [foo_row]) as Hsel.
  { apply filter_unique_key; try done.
    - rewrite Hu, Hn. by rewrite String.eqb_refl.
    - intros t Ht Hq. apply andb_true_iff in Hq as [Hqu Hqn].
      apply String.eqb_eq in Hqu. simpl in Hqn. rewrite orb_false_r in Hqn.
      apply orb_true_iff in Hqn as [Hqn | Hqn]; apply String.eqb_eq in Hqn.
      + congruence.
      + exfalso. apply not_true_iff_false in Hbaz. apply Hbaz.
        apply has_tag_true. eauto. }
  destruct (runOpenAI_completes env job w bid b link ["foo"; "baz"])
    as (w' & Hrun & Hdb & Htc); try done.
  { rewrite Hnew. apply NoDup_singleton. }
  exists w'. split; [done|]. rewrite Hdb, Htc. unfold completed.
  rewrite Hnew, Hsel. done.
Qed.

(** C7 (amended): when the inferred list does not repeat a name the user
    does not have yet, a run is all-or-nothing: every step completes (the
    silent return at a closed gate, or every new name created and the ids
    of all the selected and created tags linked to the bookmark), or an
    exception propagates with the storage as it was. *)
Theorem all_or_nothing_without_repeated_new_name env job w :
  (forall bid b link tags,
      zOpenAIRequestSchema_safeParse (job_data job) = inr bid ->
      select_bookmark bid (db w) = Some b ->
      bookmark_link b = Some link ->
      (inferTags (jobId_of job) link w).1 = Ok tags ->
      NoDup (new_names (bookmark_userId b) tags (db w))) ->
  runOpenAI env job w = (Ok tt, w)
  \/ (exists msg w', runOpenAI env job w = (Throw msg, w') /\ db w' = db w)
  \/ (exists bid b link tags w',
        zOpenAIRequestSchema_safeParse (job_data job) = inr bid
        /\ select_bookmark bid (db w) = Some b
        /\ bookmark_link b = Some link
        /\ (inferTags (jobId_of job) link w).1 = Ok tags
        /\ runOpenAI env job w = (Ok tt, w')
        /\ db w' = completed bid (bookmark_userId b) tags (db w)).
Proof.
  intros Hnd.
  destruct (runOpenAI_cases env job w)
    as [Hnoop | [(msg & w' & Hrun & Hdb & _)
                | (bid & b & link & tags & w1 & Hc & Hp & Hb & Hl & Hi & _ & _)]].
  - by left.
  - right. left. eauto.
  - right. right.
    destruct (runOpenAI_completes env job w bid b link tags)
      as (w' & Hrun & Hdb & _); try done; [by eapply Hnd|].
    exists bid, b, link, tags, w'. done.
Qed.

(** C10: only one leading hashtag is stripped, and nothing filters out an
    empty name.  When the model answers with the tags "##x" and "#" and
    the user has neither a tag "#x" nor a tag with the empty name, the
    handler creates a tag named "#x" and a tag with the empty name, and
    links both to the bookmark. *)
Theorem one_hashtag_stripped_and_empty_tag_stored env job w bid b link d r :
  configured env ->
  zOpenAIRequestSchema_safeParse (job_data job) = inr bid ->
  select_bookmark bid (db w) = Some b ->
  bookmark_link b = Some link ->
  link_description link = Some d ->
  d <> EmptyString ->
  chat_completions_create openAIResponse_model (buildPrompt (link_url link) d) = Some r ->
  r <> EmptyString ->
  JSON_parse r = inr (JObject [("tags", JArray [JString "##x"; JString "#"])]) ->
  has_tag (bookmark_userId b) "#x" (db w) = false ->
  has_tag (bookmark_userId b) EmptyString (db w) = false ->
  let x_row := {| tag_id := cuid (tag_seq (db w)); tag_name := "#x";
                  tag_userId := bookmark_userId b |} in
  let empty_row := {| tag_id := cuid (S (tag_seq (db w))); tag_name := EmptyString;
                      tag_userId := bookmark_userId b |} in
  strip_hashtag "##x" = "#x"
  /\ strip_hashtag "#" = EmptyString
  /\ (inferTags (jobId_of job) link w).1 = Ok ["#x"; EmptyString]
  /\ exists w',
      runOpenAI env job w = (Ok tt, w')
      /\ bookmarkTags (db w') = bookmarkTags (db w) ++ [x_row; empty_row]
      /\ tagsOnBookmarks (db w')
         = tagsOnBookmarks (db w)
           ++ [ai_link bid (tag_id x_row); ai_link bid (tag_id empty_row)].
Proof.
  intros Hc Hp Hb Hl Hd Hne Hr Hre Hj Hx He x_row empty_row.
  assert ((inferTags (jobId_of job) link w).1 = Ok ["#x"; EmptyString]) as Hi.
  { by rewrite (inferTags_ok _ _ _ d r _ ["##x"; "#"] Hd Hne Hr Hre Hj). }
  do 3 (split; [done|]).
  assert (new_names (bookmark_userId b) ["#x"; EmptyString] (db w) = ["#x"; EmptyString])
    as Hnew.
  { unfold new_names. simpl. by rewrite Hx, He. }
  assert (select_tags (bookmark_userId b) ["#x"; EmptyString] (db w) = []) as Hsel.
  { apply select_tags_none. intros t Ht.
    apply elem_of_cons in Ht as [-> | Ht]; [done|].
    apply elem_of_cons in Ht as [-> | Ht]; [done|]. by apply elem_of_nil in Ht. }
  destruct (runOpenAI_completes env job w bid b link ["#x"; EmptyString])
    as (w' & Hrun & Hdb & _); try done.
  { rewrite Hnew. apply NoDup_cons. split; [|apply NoDup_singleton].
    intros Hin. apply list_elem_of_singleton in Hin. done. }
  exists w'. split; [done|]. rewrite Hdb. unfold completed.
  rewrite Hnew, Hsel. done.
Qed.

End Handler.

(** ** The handler on the example data *)

Example parse_tags_response :
  Runtime.parse (Runtime.tags_response ["#foo"; "bar"])
  = inr (JObject [("tags", JArray [JString "#foo"; JString "bar"])]).
Proof. reflexivity. Qed.

Example parse_prose : Runtime.parse "Sure! Here are some tags: foo, bar"
                      = inl Runtime.syntax_error.
Proof. reflexivity. Qed.

Example schema_rejects_missing_tags :
  openAIResponseSchema_parse (JObject [("labels", JArray [JString "foo"])]) = None.
Proof. reflexivity. Qed.

Example schema_rejects_non_string_tag :
  openAIResponseSchema_parse (JObject [("tags", JArray [JString "foo"; JNumber "1"])]) = None.
Proof. reflexivity. Qed.

Example schema_rejects_array : openAIResponseSchema_parse (JArray [JString "foo"]) = None.
Proof. reflexivity. Qed.

Example run_unknown_bookmark :
  @runOpenAI Demo.silent Demo.env (Demo.job "b9") Demo.world
  = (Throw "[openai][42] bookmark with id b9 was not found",
     {| db := Demo.store; trace := [EvBookmarkFindUnique "b9"] |}).
Proof. reflexivity. Qed.

Example run_without_description :
  @runOpenAI Demo.silent Demo.env (Demo.job "b3") Demo.world
  = (Throw ("[openai][42] No description found for link " +:+ dquote +:+ "l3"
            +:+ dquote +:+ ". Skipping ..."),
     {| db := Demo.store; trace := [EvBookmarkFindUnique "b3"] |}).
Proof. reflexivity. Qed.

Example run_without_content :
  (@runOpenAI Demo.silent Demo.env (Demo.job "b1") Demo.world).1
  = Throw "[openai][42] Got no message content from OpenAI".
Proof. reflexivity. Qed.

Example run_job_without_id :
  (@runOpenAI Demo.silent Demo.env
     {| job_id := None; job_data := JNull |} Demo.world).1
  = Throw "[openai][unknown] Got malformed job request: ZodError: Expected object".
Proof. reflexivity. Qed.

(** Stripping can itself produce the repetition: the answer ["#baz"; "baz"]
    is inferred as ["baz"; "baz"]. *)
Example run_hashtag_duplicate :
  (@inferTags (Demo.answering ["#baz"; "baz"]) "42" Demo.link Demo.world).1
  = Ok ["baz"; "baz"]
  /\ (@runOpenAI (Demo.answering ["#baz"; "baz"]) Demo.env (Demo.job "b1") Demo.world).1
     = Throw unique_violation.
Proof. vm_compute. split; reflexivity. Qed.

(** C8: the inferred list ["baz"; "baz"] for a user without a tag "baz".
    The source filters the list against the names the user already has and
    not against itself, so it requests the creation of "baz" twice; the
    storage accepts the first request and refuses the second, and the
    handler throws after one tag row is stored and before any association
    is made. *)
Theorem repeated_new_name_is_created_twice :
  let run := @runOpenAI (Demo.answering ["baz"; "baz"]) Demo.env
               (Demo.job "b1") Demo.world in
  run.1 = Throw unique_violation
  /\ tag_creates (trace run.2) = [EvTagCreate "baz" "u1"; EvTagCreate "baz" "u1"]
  /\ bookmarkTags (db run.2)
     = [Demo.foo; {| tag_id := "tag0"; tag_name := "baz"; tag_userId := "u1" |}]
  /\ tagsOnBookmarks (db run.2) = [].
Proof. vm_compute. repeat split. Qed.

(** ** The statements at concrete inputs *)

Lemma existing_tag_reused_and_new_tag_created_witness :
  exists w',
    @runOpenAI (Demo.answering ["foo"; "baz"]) Demo.env (Demo.job "b1")
      Demo.world = (Ok tt, w')
    /\ bookmarkTags (db w')
       = [Demo.foo; {| tag_id := "tag0"; tag_name := "baz"; tag_userId := "u1" |}]
    /\ tagsOnBookmarks (db w') = [ai_link "b1" "t-foo"; ai_link "b1" "tag0"]
    /\ bookmarks (db w') = bookmarks Demo.store
    /\ tag_creates (trace w') = [EvTagCreate "baz" "u1"].
Proof.
  apply (@existing_tag_reused_and_new_tag_created
           (Demo.answering ["foo"; "baz"]) Demo.env (Demo.job "b1")
           Demo.world "b1"
           {| bookmark_id := "b1"; bookmark_userId := "u1";
              bookmark_link := Some Demo.link |}
           Demo.link Demo.foo).
  - split; reflexivity.
  - reflexivity.
  - reflexivity.
  - reflexivity.
  - vm_compute. reflexivity.
  - apply NoDup_singleton.
  - left.
  - reflexivity.
  - reflexivity.
  - reflexivity.
Defined.

Lemma hashtag_stripped_before_storage_witness :
  @inferTags (Demo.answering ["#foo"; "bar"]) "42" Demo.link
    (log (EvBookmarkFindUnique "b1") Demo.world)
  = (Ok ["foo"; "bar"],
     log (EvChatCompletion openAIResponse_model
            (buildPrompt "https://example.com" "An example page"))
       (log (EvBookmarkFindUnique "b1") Demo.world)).
Proof.
  apply (@hashtag_stripped_before_storage
           (Demo.answering ["#foo"; "bar"]) Demo.env (Demo.job "b1")
           Demo.world "b1"
           {| bookmark_id := "b1"; bookmark_userId := "u1";
              bookmark_link := Some Demo.link |}
           Demo.link "An example page" (Runtime.tags_response ["#foo"; "bar"])).
  - split; reflexivity.
  - reflexivity.
  - reflexivity.
  - reflexivity.
  - reflexivity.
  - discriminate.
  - reflexivity.
  - discriminate.
  - vm_compute. reflexivity.
Defined.

Lemma malformed_payload_checked_after_gate_witness :
  @runOpenAI Demo.silent Demo.env Demo.malformed_job Demo.world
  = (Throw "[openai][43] Got malformed job request: ZodError: bookmarkId: Required",
     Demo.world).
Proof.
  apply (@malformed_payload_checked_after_gate
           Demo.silent Demo.env Demo.malformed_job Demo.world
           "ZodError: bookmarkId: Required").
  reflexivity.
Defined.

(** C3, as stated, fails: on this malformed payload, with the enabled flag
    unset, the handler returns normally instead of throwing. *)
Lemma malformed_payload_behind_closed_gate_returns :
  @zOpenAIRequestSchema_safeParse Demo.silent (job_data Demo.malformed_job)
  = inl "ZodError: bookmarkId: Required"
  /\ OPENAI_ENABLED Demo.env_disabled = None
  /\ @runOpenAI Demo.silent Demo.env_disabled Demo.malformed_job Demo.world
     = (Ok tt, Demo.world)
  /\ ~ (exists msg w',
          @runOpenAI Demo.silent Demo.env_disabled Demo.malformed_job Demo.world
          = (Throw msg, w')).
Proof. repeat split. intros (msg & w' & Hrun). discriminate Hrun. Qed.

Lemma unset_gate_is_silent_noop_witness :
  @runOpenAI (Demo.answering ["foo"; "baz"]) Demo.env_disabled (Demo.job "b1")
    Demo.world = (Ok tt, Demo.world).
Proof.
  apply (@unset_gate_is_silent_noop (Demo.answering ["foo"; "baz"])).
  right. reflexivity.
Defined.

Lemma missing_link_or_description_throws_before_ai_witness :
  exists msg w',
    @runOpenAI (Demo.answering ["foo"; "baz"]) Demo.env (Demo.job "b2")
      Demo.world = (Throw msg, w')
    /\ includes "42" msg
    /\ w' = log (EvBookmarkFindUnique "b2") Demo.world
    /\ chat_calls (trace w') = [].
Proof.
  apply (@missing_link_or_description_throws_before_ai
           (Demo.answering ["foo"; "baz"]) Demo.env (Demo.job "b2")
           Demo.world "b2").
  - split; reflexivity.
  - reflexivity.
  - right. left.
    exists {| bookmark_id := "b2"; bookmark_userId := "u1"; bookmark_link := None |}.
    split; reflexivity.
Defined.

Lemma unusable_response_throws_with_job_id_witness :
  exists msg w',
    @runOpenAI Demo.rambling Demo.env (Demo.job "b1") Demo.world
    = (Throw msg, w')
    /\ includes "42" msg
    /\ (forall id, Some "42" = Some id -> includes id msg)
    /\ db w' = Demo.store.
Proof.
  apply (@unusable_response_throws_with_job_id
           Demo.rambling Demo.env (Demo.job "b1") Demo.world "b1"
           {| bookmark_id := "b1"; bookmark_userId := "u1";
              bookmark_link := Some Demo.link |}
           Demo.link "An example page" "Sure! Here are some tags: foo, bar").
  - split; reflexivity.
  - reflexivity.
  - reflexivity.
  - reflexivity.
  - reflexivity.
  - discriminate.
  - reflexivity.
  - left. exists Runtime.syntax_error. vm_compute. reflexivity.
Defined.

(** C7, as stated, fails: on the inferred list ["baz"; "baz"] the handler
    throws, and the storage is not the one it started from: the tag "baz"
    has been created. *)
Lemma throw_after_partial_write :
  (@runOpenAI (Demo.answering ["baz"; "baz"]) Demo.env (Demo.job "b1")
     Demo.world).1 = Throw unique_violation
  /\ db (@runOpenAI (Demo.answering ["baz"; "baz"]) Demo.env (Demo.job "b1")
           Demo.world).2 <> db Demo.world
  /\ bookmarkTags
       (db (@runOpenAI (Demo.answering ["baz"; "baz"]) Demo.env (Demo.job "b1")
              Demo.world).2)
     = [Demo.foo; {| tag_id := "tag0"; tag_name := "baz"; tag_userId := "u1" |}].
Proof. vm_compute. repeat split. discriminate. Qed.

Lemma all_or_nothing_without_repeated_new_name_witness :
  @runOpenAI (Demo.answering ["foo"; "baz"]) Demo.env (Demo.job "b1")
    Demo.world = (Ok tt, Demo.world)
  \/ (exists msg w',
        @runOpenAI (Demo.answering ["foo"; "baz"]) Demo.env (Demo.job "b1")
          Demo.world = (Throw msg, w') /\ db w' = db Demo.world)
  \/ (exists bid b link tags w',
        @zOpenAIRequestSchema_safeParse (Demo.answering ["foo"; "baz"])
          (job_data (Demo.job "b1")) = inr bid
        /\ select_bookmark bid (db Demo.world) = Some b
        /\ bookmark_link b = Some link
        /\ (@inferTags (Demo.answering ["foo"; "baz"]) (jobId_of (Demo.job "b1"))
              link Demo.world).1 = Ok tags
        /\ @runOpenAI (Demo.answering ["foo"; "baz"]) Demo.env (Demo.job "b1")
             Demo.world = (Ok tt, w')
        /\ db w' = @completed (Demo.answering ["foo"; "baz"]) bid (bookmark_userId b)
                     tags (db Demo.world)).
Proof.
  apply (@all_or_nothing_without_repeated_new_name (Demo.answering ["foo"; "baz"])).
  intros bid b link tags Hp Hb Hl Hi.
  injection Hp as <-. injection Hb as <-. injection Hl as <-.
  vm_compute in Hi. injection Hi as <-.
  vm_compute. apply NoDup_singleton.
Defined.

Lemma one_hashtag_stripped_and_empty_tag_stored_witness :
  strip_hashtag "##x" = "#x"
  /\ strip_hashtag "#" = EmptyString
  /\ (@inferTags (Demo.answering ["##x"; "#"]) "42" Demo.link Demo.world).1
     = Ok ["#x"; EmptyString]
  /\ exists w',
      @runOpenAI (Demo.answering ["##x"; "#"]) Demo.env (Demo.job "b1")
        Demo.world = (Ok tt, w')
      /\ bookmarkTags (db w')
         = [Demo.foo;
            {| tag_id := "tag0"; tag_name := "#x"; tag_userId := "u1" |};
            {| tag_id := "tag1"; tag_name := EmptyString; tag_userId := "u1" |}]
      /\ tagsOnBookmarks (db w') = [ai_link "b1" "tag0"; ai_link "b1" "tag1"].
Proof.
  apply (@one_hashtag_stripped_and_empty_tag_stored
           (Demo.answering ["##x"; "#"]) Demo.env (Demo.job "b1")
           Demo.world "b1"
           {| bookmark_id := "b1"; bookmark_userId := "u1";
              bookmark_link := Some Demo.link |}
           Demo.link "An example page" (Runtime.tags_response ["##x"; "#"])).
  - split; reflexivity.
  - reflexivity.
  - reflexivity.
  - reflexivity.
  - reflexivity.
  - discriminate.
  - reflexivity.
  - discriminate.
  - vm_compute. reflexivity.
  - reflexivity.
  - reflexivity.
Defined.

(** ** Further laws of the handler's functions *)

Section HandlerLaws.

Context `{Externals}.

(** *** The response schema *)



(** *** [inferTags] *)

(** X2: [inferTags] returns tags only from a well-formed exchange: the link
    has a non-empty description, the model gave a non-empty content, the
    content parses as JSON and matches the response schema.  The result
    is then the list of the answer's tags, each stripped, in order, and
    the one request made is the chat completion for the prompt built from
    the link. *)
Theorem inferTags_returns_only_validated_tags jobId link w l w' :
  inferTags jobId link w = (Ok l, w') ->
  exists d r j tags,
    link_description link = Some d /\ d <> EmptyString
    /\ chat_completions_create openAIResponse_model (buildPrompt (link_url link) d)
       = Some r
    /\ r <> EmptyString
    /\ JSON_parse r = inr j
    /\ openAIResponseSchema_parse j = Some tags
    /\ l = strip_hashtag <$> tags
    /\ w' = log (EvChatCompletion openAIResponse_model
                   (buildPrompt (link_url link) d)) w.
Proof.
  unfold inferTags.
  destruct (link_description link) as [[|c d]|] eqn:Hd; try discriminate.
  rewrite bind_run. unfold openai_chat.
  destruct (chat_completions_create _ _) as [[|c' r]|] eqn:Hr; try discriminate.
  destruct (JSON_parse _) as [e|j] eqn:Hj; [discriminate|].
  destruct (openAIResponseSchema_parse j) as [tags|] eqn:Hs; [|discriminate].
  intros [= <- <-].
  exists (String c d), (String c' r), j, tags. by repeat split.
Qed.

(** X3: when the model gives no content, or an empty one, a configured run
    on a bookmark with a described link throws the job-tagged "no message
    content" error after its one chat request; the storage is untouched. *)
Theorem missing_content_throws env job w bid b link d :
  configured env ->
  zOpenAIRequestSchema_safeParse (job_data job) = inr bid ->
  select_bookmark bid (db w) = Some b ->
  bookmark_link b = Some link ->
  link_description link = Some d ->
  d <> EmptyString ->
  js_truthy (chat_completions_create openAIResponse_model
               (buildPrompt (link_url link) d)) = false ->
  runOpenAI env job w
  = (Throw (tagged (jobId_of job) "Got no message content from OpenAI"),
     log (EvChatCompletion openAIResponse_model (buildPrompt (link_url link) d))
       (log (EvBookmarkFindUnique bid) w)).
Proof.
  intros Hc Hp Hb Hl Hd Hne Hr.
  rewrite (runOpenAI_reaches env job w bid b link) by done.
  rewrite bind_run. unfold inferTags. rewrite Hd.
  destruct d as [|c d]; [done|]. rewrite bind_run. unfold openai_chat.
  by destruct (chat_completions_create _ _) as [[|c' r]|].
Qed.

(** *** [createTags] *)

Lemma create_all_inv ns u w rows w' :
  promise_all ((fun t => bookmarkTags_create t u) <$> ns) w = (Ok rows, w') ->
  NoDup ns /\ forall n, n ∈ ns -> has_tag u n (db w) = false.
Proof.
  revert w rows w'. induction ns as [|n ns IH]; intros w rows w' Hrun.
  - split; [constructor | intros n Hn; by apply elem_of_nil in Hn].
  - cbn [fmap list_fmap promise_all] in Hrun.
    destruct (has_tag u n (db w)) eqn:Hn.
    { rewrite bookmarkTags_create_taken in Hrun by done.
      by destruct (promise_all _ _) as [rs w2]. }
    rewrite bookmarkTags_create_new in Hrun by done.
    destruct (promise_all _ _) as [[l|e] w2] eqn:Hrest; [|discriminate].
    apply IH in Hrest as [Hnd Hfresh]. cbn [db] in Hfresh.
    assert (forall n', n' ∈ ns -> has_tag u n' (db w) = false /\ n' <> n) as Hboth.
    { intros n' Hn'. specialize (Hfresh n' Hn'). rewrite has_tag_app in Hfresh.
      apply orb_false_iff in Hfresh as [Hold Hrow]. split; [done|].
      intros ->. unfold owns in Hrow. simpl in Hrow.
      by rewrite !String.eqb_refl in Hrow. }
    split.
    + apply NoDup_cons. split; [|done]. intros Hin. by destruct (Hboth n Hin).
    + intros n' Hn'. apply elem_of_cons in Hn' as [-> | Hn']; [done|].
      by destruct (Hboth n' Hn').
Qed.

Lemma create_all_throw ns u w e w' :
  promise_all ((fun t => bookmarkTags_create t u) <$> ns) w = (Throw e, w') ->
  e = unique_violation.
Proof.
  revert w w'. induction ns as [|n ns IH]; intros w w' Hrun; [discriminate|].
  cbn [fmap list_fmap promise_all] in Hrun.
  destruct (has_tag u n (db w)) eqn:Hn.
  - rewrite bookmarkTags_create_taken in Hrun by done.
    destruct (promise_all _ _) as [rs w2]. by injection Hrun as <- _.
  - rewrite bookmarkTags_create_new in Hrun by done.
    destruct (promise_all _ _) as [[l|e'] w2] eqn:Hrest; [discriminate|].
    injection Hrun as <- _. by eapply IH.
Qed.

(** What a successful [createTags] returned and did. *)
Lemma createTags_inv tags u w ids w' :
  createTags tags u w = (Ok ids, w') ->
  let rows := fresh_rows (tag_seq (db w)) u (new_names u tags (db w)) in
  NoDup (new_names u tags (db w))
  /\ ids = (tag_id <$> select_tags u tags (db w)) ++ (tag_id <$> rows)
  /\ db w' = store_tags rows (db w).
Proof.
  intros Hrun rows.
  assert (NoDup (new_names u tags (db w))) as Hnd.
  { unfold createTags in Hrun. rewrite bind_run in Hrun.
    unfold bookmarkTags_findMany in Hrun.
    rewrite newTags_spec, bind_run in Hrun.
    destruct (promise_all _ _) as [[rs|e] w2] eqn:Hall; [|discriminate].
    by apply create_all_inv in Hall as [Hnd _]. }
  rewrite createTags_ok in Hrun by done. by injection Hrun as <- <-.
Qed.

(** X4: [createTags] succeeds exactly when no name the user does not have
    yet occurs twice among the tags; the only error it can throw is the
    storage's refusal of a repeated [(userId, name)]. *)
Theorem createTags_succeeds_iff_no_repeated_new_name tags u w :
  match (createTags tags u w).1 with
  | Ok _ => NoDup (new_names u tags (db w))
  | Throw e => e = unique_violation /\ ~ NoDup (new_names u tags (db w))
  end.
Proof.
  destruct (decide (NoDup (new_names u tags (db w)))) as [Hnd | Hdup].
  - by rewrite createTags_ok.
  - unfold createTags. rewrite bind_run. unfold bookmarkTags_findMany.
    rewrite newTags_spec. rewrite bind_run.
    destruct (promise_all _ _) as [[rows|e] w2] eqn:Hrun; cbn [fst ret].
    + by apply create_all_inv in Hrun as [Hnd _].
    + split; [by eapply create_all_throw | done].
Qed.

Lemma fresh_rows_elem seq u ns row :
  row ∈ fresh_rows seq u ns -> tag_userId row = u /\ tag_name row ∈ ns.
Proof.
  revert seq. induction ns as [|n ns IH]; intros seq Hin; simpl in Hin.
  - by apply elem_of_nil in Hin.
  - apply elem_of_cons in Hin as [-> | Hin]; [split; [done | by left]|].
    apply IH in Hin as [? ?]. split; [done | by right].
Qed.

Lemma fresh_rows_cover seq u ns n :
  n ∈ ns -> exists row, row ∈ fresh_rows seq u ns /\ tag_userId row = u /\ tag_name row = n.
Proof.
  revert seq. induction ns as [|n' ns IH]; intros seq Hin.
  - by apply elem_of_nil in Hin.
  - apply elem_of_cons in Hin as [-> | Hin]; simpl.
    + eexists. split; [by left | done].
    + destruct (IH (S seq) Hin) as (row & Hrow & ? & ?).
      exists row. split; [by right | done].
Qed.

(** X5: after a successful [createTags], every tag of the list has a row
    of the user in the tag table, and the id of that row is among the ids
    returned. *)
Theorem createTags_covers_every_tag tags u w ids w' t :
  createTags tags u w = (Ok ids, w') ->
  t ∈ tags ->
  exists row,
    row ∈ bookmarkTags (db w')
    /\ tag_userId row = u /\ tag_name row = t /\ tag_id row ∈ ids.
Proof.
  intros Hrun Ht. apply createTags_inv in Hrun as (_ & -> & ->).
  destruct (has_tag u t (db w)) eqn:Hhas.
  - apply has_tag_true in Hhas as (row & Hin & Hu & Hn).
    exists row. cbn. repeat split; try done.
    + apply elem_of_app. by left.
    + apply elem_of_app. left. apply list_elem_of_fmap. exists row. split; [done|].
      apply in_select_tags. subst. done.
  - assert (t ∈ new_names u tags (db w)) as Hnew.
    { unfold new_names. apply list_elem_of_In, filter_In.
      split; [by apply list_elem_of_In | by rewrite Hhas]. }
    destruct (fresh_rows_cover (tag_seq (db w)) u _ t Hnew) as (row & Hin & Hu & Hn).
    exists row. cbn. repeat split; try done.
    + apply elem_of_app. by right.
    + apply elem_of_app. right. apply list_elem_of_fmap. eauto.
Qed.

Lemma new_names_subset u tags d n : n ∈ new_names u tags d -> n ∈ tags.
Proof.
  unfold new_names. rewrite !list_elem_of_In, filter_In. tauto.
Qed.

(** X6: every id a successful [createTags] returns is the id of a row of
    the tag table that belongs to the given user and bears one of the
    given names: a tag of another user is never handed out. *)
Theorem createTags_ids_belong_to_user tags u w ids w' id :
  createTags tags u w = (Ok ids, w') ->
  id ∈ ids ->
  exists row,
    row ∈ bookmarkTags (db w')
    /\ tag_id row = id /\ tag_userId row = u /\ tag_name row ∈ tags.
Proof.
  intros Hrun Hid. apply createTags_inv in Hrun as (_ & -> & ->).
  apply elem_of_app in Hid as [Hid | Hid];
    apply list_elem_of_fmap in Hid as (row & -> & Hrow); exists row; cbn.
  - apply in_select_tags in Hrow as (Hin & Hu & Hn).
    repeat split; try done. apply elem_of_app. by left.
  - pose proof (fresh_rows_elem _ _ _ _ Hrow) as [Hu Hn].
    repeat split; try done.
    + apply elem_of_app. by right.
    + by eapply new_names_subset.
Qed.

Lemma store_tags_nil d : store_tags [] d = d.
Proof. destruct d. unfold store_tags. simpl. by rewrite app_nil_r. Qed.

Lemma store_links_nil d : store_links [] d = d.
Proof. destruct d. unfold store_links. simpl. by rewrite app_nil_r. Qed.





Lemma select_tags_nil u d : select_tags u [] d = [].
Proof. apply select_tags_none. intros t Ht. by apply elem_of_nil in Ht. Qed.

(** X8: an answer with an empty list of tags makes a run complete without
    any write: the handler returns normally, the three tables are as they
    were, and no creation is requested. *)
Theorem empty_tag_list_changes_nothing env job w bid b link :
  configured env ->
  zOpenAIRequestSchema_safeParse (job_data job) = inr bid ->
  select_bookmark bid (db w) = Some b ->
  bookmark_link b = Some link ->
  (inferTags (jobId_of job) link w).1 = Ok [] ->
  exists w',
    runOpenAI env job w = (Ok tt, w')
    /\ db w' = db w
    /\ tag_creates (trace w') = tag_creates (trace w).
Proof.
  intros Hc Hp Hb Hl Hi.
  destruct (runOpenAI_completes env job w bid b link [])
    as (w' & Hrun & Hdb & Htc); try done; [constructor|].
  exists w'. split; [done|]. rewrite Hdb, Htc. unfold completed, new_names.
  cbn [List.filter fresh_rows fmap list_fmap].
  rewrite select_tags_nil. cbn [fmap list_fmap app].
  by rewrite store_links_nil, store_tags_nil, app_nil_r.
Qed.

Lemma select_tags_names_NoDup u tags d :
  unique_names d -> NoDup (tag_name <$> select_tags u tags d).
Proof.
  unfold unique_names, select_tags.
  set (p := fun t => String.eqb (tag_userId t) u
                     && existsb (String.eqb (tag_name t)) tags).
  induction (bookmarkTags d) as [|t l IH]; intros Hnd; [constructor|].
  rewrite fmap_cons in Hnd. apply NoDup_cons in Hnd as [Hnotin Hnd].
  simpl. destruct (p t) eqn:Hp; [|by apply IH].
  rewrite fmap_cons. apply NoDup_cons. split; [|by apply IH].
  intros Hin. apply list_elem_of_fmap in Hin as (t' & Hname & Ht').
  apply list_elem_of_In, filter_In in Ht' as [Ht' Hp'].
  apply Hnotin. apply list_elem_of_fmap. exists t'. split; [|by apply list_elem_of_In].
  unfold p in Hp, Hp'. apply andb_true_iff in Hp as [Hu _].
  apply andb_true_iff in Hp' as [Hu' _].
  apply String.eqb_eq in Hu, Hu'. congruence.
Qed.

(** X9: on a tag table without repeated [(userId, name)], a successful
    [createTags] hands out exactly one id per distinct name of the list:
    the ids are those of rows of the final table whose names are, up to
    order, the distinct names given.  A repeated name the user already
    has is thus linked once. *)
Theorem createTags_one_id_per_distinct_name tags u w ids w' :
  unique_names (db w) ->
  createTags tags u w = (Ok ids, w') ->
  exists rows,
    ids = tag_id <$> rows
    /\ rows ⊆ bookmarkTags (db w')
    /\ tag_name <$> rows ≡ₚ remove_dups tags.
Proof.
  intros Huniq Hrun.
  destruct (createTags_inv _ _ _ _ _ Hrun) as (Hnd & -> & ->).
  exists (select_tags u tags (db w)
          ++ fresh_rows (tag_seq (db w)) u (new_names u tags (db w))).
  split; [by rewrite fmap_app|]. split.
  - intros row Hrow. cbn. apply elem_of_app.
    apply elem_of_app in Hrow as [Hrow | Hrow]; [left | by right].
    by apply in_select_tags in Hrow as (? & _).
  - rewrite fmap_app, fresh_rows_names. apply NoDup_Permutation.
    + apply NoDup_app. split; [by apply select_tags_names_NoDup|]. split; [|done].
      intros n Hold Hnew. apply new_names_fresh in Hnew.
      apply list_elem_of_fmap in Hold as (row & -> & Hrow).
      apply in_select_tags in Hrow as (Hin & Hu & _).
      apply not_true_iff_false in Hnew. apply Hnew. apply has_tag_true. eauto.
    + apply NoDup_remove_dups.
    + intros n. rewrite elem_of_remove_dups, elem_of_app. split.
      * intros [Hold | Hnew]; [|by eapply new_names_subset].
        apply list_elem_of_fmap in Hold as (row & -> & Hrow).
        by apply in_select_tags in Hrow as (_ & _ & ?).
      * intros Hn. destruct (has_tag u n (db w)) eqn:Hhas.
        -- left. apply has_tag_true in Hhas as (row & Hin & Hu & Hname).
           apply list_elem_of_fmap. exists row. split; [done|].
           apply in_select_tags. subst. done.
        -- right. unfold new_names. apply list_elem_of_In, filter_In.
           split; [by apply list_elem_of_In | by rewrite Hhas].
Qed.

(** *** [connectTags] *)

(** X10: [connectTags] makes, for the given bookmark, one association per
    given tag id, in order and keeping repetitions, each attached by
    "ai"; the bookmarks and the tags stay as they are. *)
Theorem connectTags_links_each_id bid ids w :
  exists w',
    connectTags bid ids w = (Ok tt, w')
    /\ tagsOnBookmarks (db w')
       = tagsOnBookmarks (db w)
         ++ ((fun id => {| tagId := id; bookmarkId := bid; attachedBy := "ai" |}) <$> ids)
    /\ bookmarks (db w') = bookmarks (db w)
    /\ bookmarkTags (db w') = bookmarkTags (db w)
    /\ trace w' = trace w ++ ((fun id => EvTagOnBookmarkCreate id bid "ai") <$> ids).
Proof. rewrite connectTags_run. eexists. by repeat split. Qed.

(** *** [runOpenAI] *)

Lemma chat_calls_links bid ids :
  chat_calls ((fun id => EvTagOnBookmarkCreate id bid "ai") <$> ids) = [].
Proof. induction ids as [|id ids IH]; simpl; done. Qed.

Lemma chat_calls_log_find bid w :
  chat_calls (trace (log (EvBookmarkFindUnique bid) w)) = chat_calls (trace w).
Proof. cbn. rewrite chat_calls_app. simpl. by rewrite app_nil_r. Qed.



Lemma createTags_trace tags u w :
  trace (createTags tags u w).2
  = trace w ++ EvTagsFindMany u tags
    :: ((fun t => EvTagCreate t u) <$> new_names u tags (db w)).
Proof.
  unfold createTags. rewrite bind_run. unfold bookmarkTags_findMany.
  rewrite newTags_spec, bind_run.
  pose proof (create_all_trace (new_names u tags (db w)) u
                (log (EvTagsFindMany u tags) w)) as Ht.
  destruct (promise_all _ _) as [[rows|e] w2]; cbn [snd ret trace log] in *;
    rewrite Ht; by rewrite <- app_assoc.
Qed.

(** The log of a run that got past the gate and the payload check starts
    with the read of the bookmark the payload names. *)
Lemma runOpenAI_trace env job w bid :
  configured env ->
  zOpenAIRequestSchema_safeParse (job_data job) = inr bid ->
  exists evs,
    trace (runOpenAI env job w).2 = trace w ++ EvBookmarkFindUnique bid :: evs.
Proof.
  intros Hc Hp.
  destruct (select_bookmark bid (db w)) as [b|] eqn:Hb; cycle 1.
  { unfold runOpenAI. rewrite (gate_open _ Hc), Hp.
    unfold bind, fetchBookmark, bookmark_findUnique. rewrite Hb. by exists []. }
  destruct (bookmark_link b) as [link|] eqn:Hl; cycle 1.
  { unfold runOpenAI. rewrite (gate_open _ Hc), Hp.
    unfold bind, fetchBookmark, bookmark_findUnique. rewrite Hb, Hl. by exists []. }
  rewrite (runOpenAI_reaches env job w bid b link) by done. rewrite bind_run.
  assert (exists evs1,
             trace (inferTags (jobId_of job) link (log (EvBookmarkFindUnique bid) w)).2
             = trace w ++ EvBookmarkFindUnique bid :: evs1) as [evs1 Hi].
  { destruct (inferTags_world (jobId_of job) link (log (EvBookmarkFindUnique bid) w))
      as [-> | (d & _ & _ & ->)].
    - by exists [].
    - eexists [_]. cbn. by rewrite <- app_assoc. }
  destruct (inferTags _ _ _) as [[tags|msg] w1]; cbn [snd] in *; [|eauto].
  rewrite bind_run.
  pose proof (createTags_trace tags (bookmark_userId b) w1) as Hc1.
  destruct (createTags _ _ _) as [[ids|e] w2]; cbn [snd] in *.
  - rewrite connectTags_run. cbn [snd trace]. rewrite Hc1, Hi.
    eexists. rewrite <- !app_assoc. cbn [app]. reflexivity.
  - rewrite Hc1, Hi. eexists. rewrite <- !app_assoc. cbn [app]. reflexivity.
Qed.

(** X11: a run is a silent no-op exactly when the gate is closed, that is
    when the API key or the enabled flag is unset or empty.  With the
    gate open the handler either throws or issues at least the read of
    the bookmark. *)
Theorem noop_iff_gate_closed env job w :
  runOpenAI env job w = (Ok tt, w)
  <-> js_truthy (OPENAI_API_KEY env) = false \/ js_truthy (OPENAI_ENABLED env) = false.
Proof.
  split.
  - intros Hrun.
    destruct (js_truthy (OPENAI_API_KEY env)) eqn:Hk; [|by left].
    destruct (js_truthy (OPENAI_ENABLED env)) eqn:He; [|by right].
    exfalso. assert (configured env) as Hc by done.
    destruct (zOpenAIRequestSchema_safeParse (job_data job)) as [err|bid] eqn:Hp.
    + unfold runOpenAI in Hrun. by rewrite (gate_open _ Hc), Hp in Hrun.
    + destruct (runOpenAI_trace env job w bid Hc Hp) as [evs Ht].
      rewrite Hrun in Ht. cbn [snd] in Ht.
      apply (f_equal length) in Ht. rewrite length_app in Ht. simpl in Ht. lia.
  - intros [Hk | He]; unfold runOpenAI.
    + by rewrite Hk.
    + rewrite He. by rewrite orb_true_r.
Qed.

(** X12: a run requests at most one chat completion, and only for the link
    of the bookmark its payload names: with the model of the source and
    the prompt built from that link's URL and description. *)
Theorem at_most_one_chat_call env job w :
  exists calls,
    chat_calls (trace (runOpenAI env job w).2) = chat_calls (trace w) ++ calls
    /\ (calls = []
        \/ exists bid b link d,
             zOpenAIRequestSchema_safeParse (job_data job) = inr bid
             /\ select_bookmark bid (db w) = Some b
             /\ bookmark_link b = Some link
             /\ link_description link = Some d
             /\ calls = [EvChatCompletion openAIResponse_model
                           (buildPrompt (link_url link) d)]).
Proof.
  destruct (js_truthy (OPENAI_API_KEY env)) eqn:Hk; cycle 1.
  { exists []. unfold runOpenAI. rewrite Hk. cbn. rewrite app_nil_r. eauto. }
  destruct (js_truthy (OPENAI_ENABLED env)) eqn:He; cycle 1.
  { exists []. unfold runOpenAI. rewrite Hk, He. cbn. rewrite app_nil_r. eauto. }
  assert (configured env) as Hc by done.
  destruct (zOpenAIRequestSchema_safeParse (job_data job)) as [err|bid] eqn:Hp.
  { exists []. unfold runOpenAI. rewrite (gate_open _ Hc), Hp. cbn.
    rewrite app_nil_r. eauto. }
  destruct (select_bookmark bid (db w)) as [b|] eqn:Hb; cycle 1.
  { exists []. unfold runOpenAI. rewrite (gate_open _ Hc), Hp.
    unfold bind, fetchBookmark, bookmark_findUnique. rewrite Hb. unfold throw. cbn [snd].
    rewrite chat_calls_log_find, app_nil_r. eauto. }
  destruct (bookmark_link b) as [link|] eqn:Hl; cycle 1.
  { exists []. unfold runOpenAI. rewrite (gate_open _ Hc), Hp.
    unfold bind, fetchBookmark, bookmark_findUnique. rewrite Hb, Hl. unfold throw. cbn [snd].
    rewrite chat_calls_log_find, app_nil_r. eauto. }
  rewrite (runOpenAI_reaches env job w bid b link) by done. rewrite bind_run.
  assert (exists calls,
             chat_calls
               (trace (inferTags (jobId_of job) link (log (EvBookmarkFindUnique bid) w)).2)
             = chat_calls (trace w) ++ calls
             /\ (calls = []
                 \/ exists d, link_description link = Some d
                              /\ calls = [EvChatCompletion openAIResponse_model
                                            (buildPrompt (link_url link) d)]))
    as (calls & Hcalls & Hshape).
  { destruct (inferTags_world (jobId_of job) link (log (EvBookmarkFindUnique bid) w))
      as [-> | (d & _ & Hd & ->)].
    - exists []. rewrite chat_calls_log_find, app_nil_r. eauto.
    - eexists [_]. split; [|right; eauto].
      cbn. rewrite !chat_calls_app. simpl. by rewrite app_nil_r. }
  exists calls. split; cycle 1.
  { destruct Hshape as [-> | (d & Hd & ->)]; [by left|].
    right. exists bid, b, link, d. done. }
  destruct (inferTags _ _ _) as [[tags|msg] w1]; cbn [snd] in *; [|done].
  rewrite bind_run.
  pose proof (createTags_frame tags (bookmark_userId b) w1) as (_ & _ & _ & Hchat).
  destruct (createTags _ _ _) as [[ids|e] w2]; cbn [snd] in *.
  - rewrite connectTags_run. cbn [snd trace].
    rewrite chat_calls_app, chat_calls_links, app_nil_r. congruence.
  - congruence.
Qed.


(** X14: the handler only ever appends.  Whatever the job and the outcome,
    the bookmarks are as they were, and the tag table and the association
    table are the old ones followed by new rows: no row is deleted or
    rewritten. *)
Theorem storage_only_grows env job w :
  let w' := (runOpenAI env job w).2 in
  bookmarks (db w') = bookmarks (db w)
  /\ (exists rows, bookmarkTags (db w') = bookmarkTags (db w) ++ rows)
  /\ (exists links, tagsOnBookmarks (db w') = tagsOnBookmarks (db w) ++ links).
Proof.
  destruct (runOpenAI_cases env job w)
    as [-> | [(msg & w' & -> & Hdb & _)
             | (bid & b & link & tags & w1 & _ & _ & _ & _ & _ & Hdb & ->)]];
    cbn [snd].
  - repeat split; exists []; by rewrite app_nil_r.
  - rewrite Hdb. repeat split; exists []; by rewrite app_nil_r.
  - rewrite bind_run.
    pose proof (createTags_frame tags (bookmark_userId b) w1) as (Hb & Hl & [rows Ht] & _).
    destruct (createTags _ _ _) as [[ids|e] w2]; cbn [snd] in *.
    + rewrite connectTags_run. cbn [snd db store_links bookmarks bookmarkTags tagsOnBookmarks].
      rewrite Hb, Hl, Ht, Hdb. repeat split; eauto.
    + rewrite Hb, Hl, Ht, Hdb. repeat split; eauto. exists []. by rewrite app_nil_r.
Qed.


End HandlerLaws.

(** ** The further laws at concrete inputs *)

Lemma inferTags_returns_only_validated_tags_witness :
  exists d r j tags,
    link_description Demo.link = Some d /\ d <> EmptyString
    /\ @chat_completions_create (Demo.answering ["#foo"; "bar"]) openAIResponse_model
         (buildPrompt (link_url Demo.link) d) = Some r
    /\ r <> EmptyString
    /\ @JSON_parse (Demo.answering ["#foo"; "bar"]) r = inr j
    /\ openAIResponseSchema_parse j = Some tags
    /\ ["foo"; "bar"] = strip_hashtag <$> tags
    /\ log (EvChatCompletion openAIResponse_model
              (buildPrompt "https://example.com" "An example page")) Demo.world
       = log (EvChatCompletion openAIResponse_model
                (buildPrompt (link_url Demo.link) d)) Demo.world.
Proof.
  apply (@inferTags_returns_only_validated_tags
           (Demo.answering ["#foo"; "bar"]) "42" Demo.link Demo.world).
  vm_compute. reflexivity.
Defined.

Lemma missing_content_throws_witness :
  @runOpenAI Demo.silent Demo.env (Demo.job "b1") Demo.world
  = (Throw "[openai][42] Got no message content from OpenAI",
     log (EvChatCompletion openAIResponse_model
            (buildPrompt "https://example.com" "An example page"))
       (log (EvBookmarkFindUnique "b1") Demo.world)).
Proof.
  apply (@missing_content_throws Demo.silent Demo.env (Demo.job "b1") Demo.world "b1"
           {| bookmark_id := "b1"; bookmark_userId := "u1";
              bookmark_link := Some Demo.link |}
           Demo.link "An example page").
  - split; reflexivity.
  - reflexivity.
  - reflexivity.
  - reflexivity.
  - reflexivity.
  - discriminate.
  - reflexivity.
Defined.

Lemma createTags_covers_every_tag_witness :
  exists row,
    row ∈ bookmarkTags
            (db (@createTags Demo.silent ["foo"; "baz"] "u1" Demo.shared_world).2)
    /\ tag_userId row = "u1" /\ tag_name row = "baz"
    /\ tag_id row ∈ ["t-foo"; "tag0"].
Proof.
  apply (@createTags_covers_every_tag Demo.silent ["foo"; "baz"] "u1" Demo.shared_world).
  - vm_compute. reflexivity.
  - right. left.
Defined.

Lemma createTags_ids_belong_to_user_witness :
  exists row,
    row ∈ bookmarkTags
            (db (@createTags Demo.silent ["foo"; "baz"] "u1" Demo.shared_world).2)
    /\ tag_id row = "tag0" /\ tag_userId row = "u1" /\ tag_name row ∈ ["foo"; "baz"].
Proof.
  apply (@createTags_ids_belong_to_user Demo.silent ["foo"; "baz"] "u1"
           Demo.shared_world ["t-foo"; "tag0"]).
  - vm_compute. reflexivity.
  - right. left.
Defined.


Lemma empty_tag_list_changes_nothing_witness :
  exists w',
    @runOpenAI (Demo.answering []) Demo.env (Demo.job "b1") Demo.world = (Ok tt, w')
    /\ db w' = Demo.store
    /\ tag_creates (trace w') = [].
Proof.
  apply (@empty_tag_list_changes_nothing (Demo.answering []) Demo.env (Demo.job "b1")
           Demo.world "b1"
           {| bookmark_id := "b1"; bookmark_userId := "u1";
              bookmark_link := Some Demo.link |}
           Demo.link).
  - split; reflexivity.
  - reflexivity.
  - reflexivity.
  - reflexivity.
  - vm_compute. reflexivity.
Defined.

Lemma createTags_one_id_per_distinct_name_witness :
  exists rows,
    ["t-foo"; "tag0"] = tag_id <$> rows
    /\ rows ⊆ bookmarkTags
                (db (@createTags Demo.silent ["foo"; "foo"; "baz"] "u1"
                       Demo.shared_world).2)
    /\ tag_name <$> rows ≡ₚ remove_dups ["foo"; "foo"; "baz"].
Proof.
  apply (@createTags_one_id_per_distinct_name Demo.silent ["foo"; "foo"; "baz"] "u1"
           Demo.shared_world).
  - unfold unique_names. simpl. apply NoDup_cons. split.
    + intros Hin. apply list_elem_of_singleton in Hin. discriminate Hin.
    + apply NoDup_singleton.
  - vm_compute. reflexivity.
Defined.

